(** * The fetch-and-derive pipeline of the weather screen (src/index.tsx)

    A shallow embedding of the [Index] component: its five [useState]
    cells, the asynchronous [fetchWeather] pipeline (geocoding lookup,
    then forecast lookup), the [handleSearch] handler with the
    [useEffect] that re-runs the pipeline when [city] changes, the
    derivation of the background gradient [bgColors], the branches of
    [renderContent], and the helper components [WeatherIcon],
    [HourlyForecastItem], [DailyForecastItem] and [InfoCard].

    Conventions.
    - A JavaScript string is a [string]; a character stands for a code
      unit in the range U+0000..U+00FF.
    - Unix timestamps ([dt], [sunrise], [sunset]) are integers of [Z].
      Measured quantities (temperatures, wind speed, UV index) are
      rationals, and arithmetic on them is exact.
    - The coordinates of a geocoding match are only ever interpolated into
      the forecast URL, so they are carried as the text that the template
      literal produces for them.
    - Response bodies have the shape of the TypeScript interfaces of the
      source ([WeatherData]) and of the geocoding endpoint (an array of
      [{lat, lon, name}]).
    - One pipeline run is atomic: runs are sequenced, never interleaved. *)

From Stdlib Require Import Bool List String Ascii ZArith QArith Lia.
From Stdlib Require Import Qround Qminmax Lqa.
Import ListNotations.
Close Scope Q_scope.
Open Scope string_scope.

(** ** JavaScript string primitives used by the component *)

Module JsString.

(** [s.includes(search)]: [search] occurs in [s] as a contiguous run. *)
Fixpoint includes (s search : string) : bool :=
  String.prefix search s
  || match s with
     | EmptyString => false
     | String _ rest => includes rest search
     end.

(** WhiteSpace and LineTerminator code units below U+0100: TAB, LF, VT,
    FF, CR, SPACE and NO-BREAK SPACE. *)
Definition isWhiteSpace (c : ascii) : bool :=
  match nat_of_ascii c with
  | 9 | 10 | 11 | 12 | 13 | 32 | 160 => true
  | _ => false
  end.

Fixpoint trimStart (s : string) : string :=
  match s with
  | EmptyString => EmptyString
  | String c rest => if isWhiteSpace c then trimStart rest else s
  end.

Fixpoint trimEnd (s : string) : string :=
  match s with
  | EmptyString => EmptyString
  | String c rest =>
      match trimEnd rest with
      | EmptyString => if isWhiteSpace c then EmptyString else String c EmptyString
      | kept => String c kept
      end
  end.

(** [s.trim()] *)
Definition trim (s : string) : string := trimEnd (trimStart s).

(** Every code unit of [s] is white space (true of the empty string). *)
Fixpoint allWhiteSpace (s : string) : bool :=
  match s with
  | EmptyString => true
  | String c rest => isWhiteSpace c && allWhiteSpace rest
  end.

(** Truthiness of a string: only the empty string is falsy. *)
Definition truthy (s : string) : bool := negb (s =? "").

End JsString.
Import JsString.

(** ** Data model (the TypeScript interfaces) *)

Record Condition := { main : string; description : string }.

(** [temp: number | { min: number; max: number }] *)
Inductive Temp :=
| Scalar (t : Q)
| MinMax (min max : Q).

Record ForecastItem := {
  fi_dt : Z;
  fi_temp : Temp;
  fi_weather : list Condition
}.

Record Current := {
  dt : Z;
  sunrise : Z;
  sunset : Z;
  temp : Q;
  feels_like : Q;
  humidity : Z;
  uvi : Q;
  wind_speed : Q;
  weather : list Condition
}.

(** [current] is optional here because [bgColors] guards on it
    ([weatherData && weatherData.current]). *)
Record WeatherData := {
  name : string;
  current : option Current;
  hourly : list ForecastItem;
  daily : list ForecastItem
}.

(** One element of the geocoding response. *)
Record GeoMatch := { lat : string; lon : string; geo_name : string }.

(** [{ ...fetchedWeatherData, name }] *)
Definition spread_name (fetchedWeatherData : WeatherData) (name' : string) : WeatherData :=
  {| name := name';
     current := current fetchedWeatherData;
     hourly := hourly fetchedWeatherData;
     daily := daily fetchedWeatherData |}.

(** ** Component state: the five [useState] cells *)

Record AppState := {
  city : string;
  weatherData : option WeatherData;
  loading : bool;
  error : option string;
  searchInput : string
}.

Definition setCity (v : string) (st : AppState) : AppState :=
  {| city := v; weatherData := weatherData st; loading := loading st;
     error := error st; searchInput := searchInput st |}.

Definition setWeatherData (v : option WeatherData) (st : AppState) : AppState :=
  {| city := city st; weatherData := v; loading := loading st;
     error := error st; searchInput := searchInput st |}.

Definition setLoading (v : bool) (st : AppState) : AppState :=
  {| city := city st; weatherData := weatherData st; loading := v;
     error := error st; searchInput := searchInput st |}.

Definition setError (v : option string) (st : AppState) : AppState :=
  {| city := city st; weatherData := weatherData st; loading := loading st;
     error := v; searchInput := searchInput st |}.

Definition setSearchInput (v : string) (st : AppState) : AppState :=
  {| city := city st; weatherData := weatherData st; loading := loading st;
     error := error st; searchInput := v |}.

(** The values passed to [useState] on mount. *)
Definition initialState : AppState :=
  {| city := "Irvine"; weatherData := None; loading := true;
     error := None; searchInput := "" |}.

(** ** Exceptions and the network *)

(** A thrown value: an [Error] instance carrying its [message], or any
    other value ([err instanceof Error] is false). *)
Inductive Thrown :=
| ErrorInstance (message : string)
| OtherValue.

(** A settled [fetch]: the [ok] flag and what [response.json()] settles to. *)
Record Response (A : Type) := {
  ok : bool;
  json : Thrown + A
}.
Arguments ok {A} _.
Arguments json {A} _.

(** The remote service: what [fetch(url)] settles to (a rejection or a
    response), for the geocoding and for the forecast endpoint. *)
Record Network := {
  fetchGeo : string -> Thrown + Response (list GeoMatch);
  fetchForecast : string -> Thrown + Response WeatherData
}.

(** The body of the [try] block: a computation that logs the URLs it
    requests and either throws or returns. *)
Module Try.

Definition t (A : Type) : Type := list string * (Thrown + A).

Definition ret {A} (a : A) : t A := ([], inr a).

Definition throw {A} (e : Thrown) : t A := ([], inl e).

Definition bind {A B} (m : t A) (k : A -> t B) : t B :=
  match m with
  | (log, inl e) => (log, inl e)
  | (log, inr a) => let (log', r) := k a in ((log ++ log')%list, r)
  end.

(** [await fetch(url)] against an endpoint. *)
Definition fetch {A} (endpoint : string -> Thrown + Response A) (url : string)
  : t (Response A) :=
  ([url], endpoint url).

(** [await response.json()] *)
Definition parse {A} (r : Response A) : t A := ([], json r).

End Try.

Notation "x <- m ;; k" := (Try.bind m (fun x => k))
  (at level 61, m at next level, right associativity).

(** ** The pipeline: [fetchWeather] *)

Definition API_KEY_PLACEHOLDER : string := "YOUR_API_KEY_HERE".

(** The credential as the repository ships it. The pipeline below takes the
    configured credential as a parameter [apiKey]. *)
Definition API_KEY : string := "YOUR_API_KEY_HERE".

(** The double-quote character used inside the city-not-found message. *)
Definition dquote : string := String (ascii_of_nat 34) EmptyString.

Definition geoUrl (apiKey cityName : string) : string :=
  "https://api.openweathermap.org/geo/1.0/direct?q=" ++ cityName
  ++ "&limit=1&appid=" ++ apiKey.

Definition weatherUrl (apiKey lat lon : string) : string :=
  "https://api.openweathermap.org/data/3.0/onecall?lat=" ++ lat
  ++ "&lon=" ++ lon
  ++ "&units=imperial&exclude=minutely,alerts&appid=" ++ apiKey.

Definition msgMissingKey : string := "Please add your OpenWeatherMap API key.".
Definition msgGeoFailed : string := "Failed to fetch city coordinates.".
Definition msgCityNotFound (cityName : string) : string :=
  "Could not find city: " ++ dquote ++ cityName ++ dquote.
Definition msgForecastFailed : string :=
  "API Key Error. Ensure it is valid and authorized for One Call API.".
Definition msgUnknown : string := "An unknown error occurred.".

Section Pipeline.

Variable apiKey : string.
Variable net : Network.

(** The [try] block of [fetchWeather]: it returns the value handed to
    [setWeatherData]. *)
Definition tryBlock (cityName : string) : Try.t WeatherData :=
  geoResponse <- Try.fetch (fetchGeo net) (geoUrl apiKey cityName) ;;
  if negb (ok geoResponse) then Try.throw (ErrorInstance msgGeoFailed) else
  geoData <- Try.parse geoResponse ;;
  match geoData with
  | [] => Try.throw (ErrorInstance (msgCityNotFound cityName))
  | first :: _ =>
      weatherResponse <-
        Try.fetch (fetchForecast net) (weatherUrl apiKey (lat first) (lon first)) ;;
      if negb (ok weatherResponse) then Try.throw (ErrorInstance msgForecastFailed) else
      fetchedWeatherData <- Try.parse weatherResponse ;;
      Try.ret (spread_name fetchedWeatherData (geo_name first))
  end.

(** The [catch] clause. *)
Definition catch (err : Thrown) (st : AppState) : AppState :=
  match err with
  | ErrorInstance message => setError (Some message) st
  | OtherValue => setError (Some msgUnknown) st
  end.

(** One run of [fetchWeather(cityName)] from state [st]: the state once
    the promise has settled, and the URLs requested, in order. *)
Definition fetchWeather (cityName : string) (st : AppState)
  : AppState * list string :=
  if negb (truthy cityName) then (st, []) else
  let st := setError None (setLoading true st) in
  if apiKey =? API_KEY_PLACEHOLDER then
    (setLoading false (setError (Some msgMissingKey) st), [])
  else
    let (log, outcome) := tryBlock cityName in
    let st := match outcome with
              | inr data => setWeatherData (Some data) st
              | inl err => catch err st
              end in
    (setLoading false st, log).

(** [useEffect(() => fetchWeather(city), [city, fetchWeather])]:
    [fetchWeather] is memoised once, so after the first render the effect
    re-runs exactly when [city] differs from its value at the previous
    render. *)
Definition useEffect (prev st : AppState) : AppState * list string :=
  if city st =? city prev then (st, []) else fetchWeather (city st) st.

(** First render: the effect runs with the initial city. *)
Definition mount : AppState * list string :=
  fetchWeather (city initialState) initialState.

Definition handleSearch (st : AppState) : AppState :=
  if truthy (searchInput st)
  then setSearchInput "" (setCity (trim (searchInput st)) st)
  else st.

(** The user's actions on the text field. *)
Inductive Event :=
| ChangeText (text : string)   (* onChangeText={setSearchInput} *)
| SubmitEditing.               (* onSubmitEditing={handleSearch} *)

Definition step (ev : Event) (st : AppState) : AppState * list string :=
  match ev with
  | ChangeText text => (setSearchInput text st, [])
  | SubmitEditing => useEffect st (handleSearch st)
  end.

Fixpoint run (evs : list Event) (st : AppState) : AppState * list string :=
  match evs with
  | [] => (st, [])
  | ev :: evs' =>
      let (st1, log1) := step ev st in
      let (st2, log2) := run evs' st1 in
      (st2, (log1 ++ log2)%list)
  end.

(** The user types [text] in the field and confirms. *)
Definition submitText (text : string) (st : AppState) : AppState * list string :=
  run [ChangeText text; SubmitEditing] st.

(** A whole session: mount, then the events. Events are taken in every
    state; the running app accepts them only while a text field is on
    screen, so the sessions here include all of the app's. *)
Definition session (evs : list Event) : AppState * list string :=
  let (st0, log0) := mount in
  let (st1, log1) := run evs st0 in
  (st1, (log0 ++ log1)%list).

End Pipeline.

(** ** Rendering *)

Definition defaultColors : list string := ["#4c669f"; "#3b5998"; "#192f6a"].

Definition isDay (cur : Current) : bool :=
  (dt cur >? sunrise cur)%Z && (dt cur <? sunset cur)%Z.

(** The [if / else if] chain on the primary condition. *)
Definition themeColors (condition : string) (isDay : bool) : list string :=
  if includes condition "Clear" then
    if isDay then ["#4a90e2"; "#81c7f5"] else ["#0c1445"; "#3b5998"]
  else if includes condition "Clouds" then
    if isDay then ["#6c7a89"; "#95a5a6"] else ["#2c3e50"; "#34495e"]
  else if includes condition "Rain" || includes condition "Drizzle" then
    ["#546e7a"; "#37474f"]
  else if includes condition "Snow" then
    ["#b0c4de"; "#a4b0be"]
  else defaultColors.

(** [bgColors] as computed on each render. [None] stands for the render
    throwing: [weather[0]] is [undefined] when the condition list is
    empty, and reading [.main] from it raises a TypeError. *)
Definition bgColors (weatherData : option WeatherData) : option (list string) :=
  match weatherData with
  | Some data =>
      match current data with
      | Some cur =>
          match weather cur with
          | [] => None
          | primary :: _ => Some (themeColors (main primary) (isDay cur))
          end
      | None => Some defaultColors
      end
  | None => Some defaultColors
  end.

(** Which of its four branches [renderContent] takes, with the state each
    branch reads. *)
Inductive Content :=
| Spinner
| ErrorScreen (message : string) (searchValue : string)
| WeatherScreen (data : WeatherData) (searchValue : string)
| Blank.

(** [if (error)]: [null] and the empty string are falsy. *)
Definition truthyError (e : option string) : bool :=
  match e with
  | Some message => truthy message
  | None => false
  end.

Definition renderContent (st : AppState) : Content :=
  if loading st then Spinner else
  if truthyError (error st) then
    ErrorScreen (match error st with Some m => m | None => "" end) (searchInput st)
  else
    match weatherData st with
    | Some data => WeatherScreen data (searchInput st)
    | None => Blank
    end.

(** What a render produces: the gradient colours and the content. *)
Definition render (st : AppState) : option (list string) * Content :=
  (bgColors (weatherData st), renderContent st).

(** The three user-visible states of the pipeline. *)
Definition isLoading (st : AppState) : Prop := loading st = true.

Definition isError (st : AppState) (message : string) : Prop :=
  loading st = false /\ error st = Some message /\ truthy message = true.

Definition isReady (st : AppState) (data : WeatherData) : Prop :=
  loading st = false /\ error st = None /\ weatherData st = Some data.

(** ** Helper components *)

Inductive Icon :=
| Sun | Cloud | CloudRain | CloudSnow | Wind | Droplets | Thermometer
| CloudDrizzle | CloudLightning.

(** What an icon component is rendered with. *)
Record IconElement := { icon : Icon; size : Z; color : string }.

(** [condition?.includes(search)]: [undefined] when [condition] is, which
    is falsy. *)
Definition includesOpt (condition : option string) (search : string) : bool :=
  match condition with
  | Some c => includes c search
  | None => false
  end.

(** [WeatherIcon]: a sequence of independent [if]s, each overwriting
    [IconComponent]; [size] defaults to 48. *)
Definition WeatherIcon (condition : option string) (size : option Z) : IconElement :=
  let IconComponent := Sun in
  let IconComponent :=
    if includesOpt condition "Clear" then Sun else IconComponent in
  let IconComponent :=
    if includesOpt condition "Clouds" then Cloud else IconComponent in
  let IconComponent :=
    if includesOpt condition "Rain" then CloudRain else IconComponent in
  let IconComponent :=
    if includesOpt condition "Drizzle" then CloudDrizzle else IconComponent in
  let IconComponent :=
    if includesOpt condition "Snow" then CloudSnow else IconComponent in
  let IconComponent :=
    if includesOpt condition "Thunderstorm" then CloudLightning else IconComponent in
  let IconComponent :=
    if includesOpt condition "Mist" || includesOpt condition "Fog"
       || includesOpt condition "Haze"
    then Cloud else IconComponent in
  {| icon := IconComponent;
     size := match size with Some n => n | None => 48%Z end;
     color := "white" |}.

(** [Math.round]: the nearest integer, a tie going up. *)
Definition round (x : Q) : Z := Qfloor (x + (1 # 2)).

(** The label of an hourly item: the text "Now", or the hour of the
    instant [new Date(ms)] as the locale prints it (kept symbolic). *)
Inductive HourLabel :=
| Now
| HourOf (ms : Z).

Record HourlyView := {
  hourLabel : HourLabel;
  hourIcon : IconElement;
  hourTemp : Z
}.

(** [HourlyForecastItem]. [None] stands for the component throwing:
    [item.weather[0]] is [undefined] for an empty condition list. *)
Definition HourlyForecastItem (item : ForecastItem) (isNow : bool)
  : option HourlyView :=
  match fi_weather item with
  | [] => None
  | primary :: _ =>
      Some {| hourLabel := if isNow then Now else HourOf (fi_dt item * 1000);
              hourIcon := WeatherIcon (Some (main primary)) (Some 28%Z);
              hourTemp := match fi_temp item with
                          | Scalar t => round t
                          | MinMax _ _ => 0%Z
                          end |}
  end.

(** The width of the bar of a daily row, in percent. *)
Definition barWidth (t : Temp) : Q :=
  match t with
  | MinMax lo hi => Qmax 0 (Qmin 100 ((hi - lo) / 30 * 100))
  | Scalar _ => 0
  end.

Record DailyView := {
  weekdayOf : Z;          (* the instant, in ms, whose weekday is printed *)
  dayIcon : IconElement;
  dayMin : Z;
  dayBar : Q;
  dayMax : Z
}.

(** [DailyForecastItem]; [None] as for the hourly item. *)
Definition DailyForecastItem (item : ForecastItem) : option DailyView :=
  match fi_weather item with
  | [] => None
  | primary :: _ =>
      Some {| weekdayOf := fi_dt item * 1000;
              dayIcon := WeatherIcon (Some (main primary)) (Some 28%Z);
              dayMin := match fi_temp item with
                        | MinMax lo _ => round lo
                        | Scalar _ => 0%Z
                        end;
              dayBar := barWidth (fi_temp item);
              dayMax := match fi_temp item with
                        | MinMax _ hi => round hi
                        | Scalar _ => 0%Z
                        end |}
  end.

(** The value an info card shows, by the template that builds it. *)
Inductive CardValue :=
| Degrees (n : Z)        (* `${n}°` *)
| Percent (n : Z)        (* `${n}%` *)
| MilesPerHour (n : Z)   (* `${n} mph` *)
| Plain (x : Q).

Record InfoCardView := {
  cardIcon : Icon;
  cardTitle : string;
  cardValue : CardValue
}.

Definition InfoCard (icon : Icon) (title : string) (value : CardValue)
  : InfoCardView :=
  {| cardIcon := icon; cardTitle := title; cardValue := value |}.

(** ** The weather screen *)

(** [array.slice(start, end)] for indices [0 <= start <= end]. *)
Definition slice {A : Type} (start end_ : nat) (l : list A) : list A :=
  firstn (end_ - start) (skipn start l).

(** [array.map((item, index) => ...)] *)
Fixpoint mapFrom {A B : Type} (f : A -> nat -> B) (index : nat) (l : list A)
  : list B :=
  match l with
  | [] => []
  | item :: rest => f item index :: mapFrom f (S index) rest
  end.

Definition mapIndexed {A B : Type} (f : A -> nat -> B) (l : list A) : list B :=
  mapFrom f 0 l.

(** All the children rendered, or the first throw. *)
Fixpoint allRendered {A : Type} (l : list (option A)) : option (list A) :=
  match l with
  | [] => Some []
  | None :: _ => None
  | Some a :: rest =>
      match allRendered rest with
      | Some done => Some (a :: done)
      | None => None
      end
  end.

(** What the weather branch of [renderContent] shows. [high] and [low]
    are [None] where the source prints the empty string. *)
Record WeatherView := {
  searchValue : string;
  placeName : string;
  temperature : Z;
  conditionText : string;
  high : option Z;
  low : option Z;
  hourlyRow : list HourlyView;
  dailyRows : list DailyView;
  cards : list InfoCardView
}.

(** The weather branch of [renderContent]. [None] stands for a TypeError
    while rendering: [current], [current.weather[0]] or [daily[0]] is
    [undefined], or a child component throws. *)
Definition weatherView (data : WeatherData) (searchInput : string)
  : option WeatherView :=
  match current data with
  | None => None
  | Some cur =>
      match weather cur, daily data with
      | primary :: _, today :: _ =>
          match
            allRendered
              (mapIndexed (fun item index => HourlyForecastItem item (index =? 0)%nat)
                 (slice 0 24 (hourly data))),
            allRendered (map DailyForecastItem (slice 1 8 (daily data)))
          with
          | Some hours, Some days =>
              Some {| searchValue := searchInput;
                      placeName := name data;
                      temperature := round (temp cur);
                      conditionText := description primary;
                      high := match fi_temp today with
                              | MinMax _ hi => Some (round hi)
                              | Scalar _ => None
                              end;
                      low := match fi_temp today with
                             | MinMax lo _ => Some (round lo)
                             | Scalar _ => None
                             end;
                      hourlyRow := hours;
                      dailyRows := days;
                      cards :=
                        [ InfoCard Thermometer "Feels Like"
                            (Degrees (round (feels_like cur)));
                          InfoCard Droplets "Humidity" (Percent (humidity cur));
                          InfoCard Wind "Wind"
                            (MilesPerHour (round (wind_speed cur)));
                          InfoCard Sun "UV Index" (Plain (uvi cur)) ] |}
          | _, _ => None
          end
      | _, _ => None
      end
  end.

(** The children of the hourly strip and of the seven-day list, as
    [weatherView] builds them. *)
Definition hourlyChildren (data : WeatherData) : list (option HourlyView) :=
  mapIndexed (fun item index => HourlyForecastItem item (index =? 0)%nat)
    (slice 0 24 (hourly data)).

Definition dailyChildren (data : WeatherData) : list (option DailyView) :=
  map DailyForecastItem (slice 1 8 (daily data)).

(** What is inside the gradient. *)
Inductive Body :=
| SpinnerBody
| ErrorBody (message : string) (searchValue : string)
| WeatherBody (view : WeatherView)
| BlankBody.

(** One render of [Index]: the gradient colours and the body, or [None]
    when the render throws. [bgColors] is computed before the content, for
    every state. *)
Definition Index (st : AppState) : option (list string * Body) :=
  match bgColors (weatherData st) with
  | None => None
  | Some colors =>
      match renderContent st with
      | Spinner => Some (colors, SpinnerBody)
      | ErrorScreen message field => Some (colors, ErrorBody message field)
      | WeatherScreen data field =>
          match weatherView data field with
          | Some view => Some (colors, WeatherBody view)
          | None => None
          end
      | Blank => Some (colors, BlankBody)
      end
  end.

(** ** Vocabulary of the statements *)

(** [s] contains [x]: some run of [s] is [x]. *)
Definition contains (s x : string) : Prop :=
  exists pre post, s = pre ++ x ++ post.

(** The state in which the [try] block starts. *)
Definition entered (st : AppState) : AppState :=
  setError None (setLoading true st).

(** Where the network can make the [try] block throw: [fetch] rejects, or
    [response.json()] rejects, at either stage. *)
Inductive Rejects (apiKey : string) (net : Network) (cityName : string)
  : Thrown -> Prop :=
| GeoFetchRejects (e : Thrown) :
    fetchGeo net (geoUrl apiKey cityName) = inl e ->
    Rejects apiKey net cityName e
| GeoJsonRejects (r : Response (list GeoMatch)) (e : Thrown) :
    fetchGeo net (geoUrl apiKey cityName) = inr r ->
    ok r = true -> json r = inl e ->
    Rejects apiKey net cityName e
| ForecastFetchRejects (r : Response (list GeoMatch))
    (first : GeoMatch) (others : list GeoMatch) (e : Thrown) :
    fetchGeo net (geoUrl apiKey cityName) = inr r ->
    ok r = true -> json r = inr (first :: others) ->
    fetchForecast net (weatherUrl apiKey (lat first) (lon first)) = inl e ->
    Rejects apiKey net cityName e
| ForecastJsonRejects (r : Response (list GeoMatch))
    (first : GeoMatch) (others : list GeoMatch)
    (w : Response WeatherData) (e : Thrown) :
    fetchGeo net (geoUrl apiKey cityName) = inr r ->
    ok r = true -> json r = inr (first :: others) ->
    fetchForecast net (weatherUrl apiKey (lat first) (lon first)) = inr w ->
    ok w = true -> json w = inl e ->
    Rejects apiKey net cityName e.

(** The message the [catch] clause shows for a thrown value. *)
Definition caughtMessage (e : Thrown) : string :=
  match e with
  | ErrorInstance message => message
  | OtherValue => "An unknown error occurred."
  end.

(** The rules of the theme table as the specification lists them: a
    trigger on the condition, and the colours by day and by night. *)
Record Rule := {
  triggers : string -> bool;
  byDay : list string;
  byNight : list string
}.

Definition rules : list Rule :=
  [ {| triggers := fun c => includes c "Clear";
       byDay := ["#4a90e2"; "#81c7f5"]; byNight := ["#0c1445"; "#3b5998"] |};
    {| triggers := fun c => includes c "Clouds";
       byDay := ["#6c7a89"; "#95a5a6"]; byNight := ["#2c3e50"; "#34495e"] |};
    {| triggers := fun c => includes c "Rain" || includes c "Drizzle";
       byDay := ["#546e7a"; "#37474f"]; byNight := ["#546e7a"; "#37474f"] |};
    {| triggers := fun c => includes c "Snow";
       byDay := ["#b0c4de"; "#a4b0be"]; byNight := ["#b0c4de"; "#a4b0be"] |} ].

(** First match wins; the fallback applies when no rule triggers. *)
Fixpoint firstMatch (rs : list Rule) (fallback : list string)
  (condition : string) (day : bool) : list string :=
  match rs with
  | [] => fallback
  | rule :: rs' =>
      if triggers rule condition
      then (if day then byDay rule else byNight rule)
      else firstMatch rs' fallback condition day
  end.

(** The number of confirmations among the events. *)
Fixpoint submissions (evs : list Event) : nat :=
  match evs with
  | [] => 0
  | SubmitEditing :: evs' => S (submissions evs')
  | ChangeText _ :: evs' => submissions evs'
  end.

(** ** Concrete data used to exercise the definitions *)

Module Demo.

Definition key : string := "0123456789abcdef".

Definition irvine : GeoMatch :=
  {| lat := "33.68"; lon := "-117.82"; geo_name := "Irvine" |}.

Definition clearNoon : Current :=
  {| dt := 1700020000; sunrise := 1700000000; sunset := 1700040000;
     temp := 71 # 1; feels_like := 70 # 1; humidity := 40;
     uvi := 5 # 1; wind_speed := 3 # 1;
     weather := [{| main := "Clear"; description := "clear sky" |}] |}.

(** A forecast body; the [name] it carries is not a place name. *)
Definition forecast : WeatherData :=
  {| name := "America/Los_Angeles"; current := Some clearNoon;
     hourly := []; daily := [] |}.

Definition syntaxError : Thrown :=
  ErrorInstance "Unexpected token < in JSON at position 0".

(** A service that knows Irvine (under two spellings), answers 500 for
    "Down", sends a body that is not JSON for "Garbled", and has no match
    for any other name; the forecast endpoint answers 401 for the
    coordinates (0, 0) and the forecast above otherwise. *)
Definition net : Network :=
  {| fetchGeo := fun url =>
       if (url =? geoUrl key "Irvine") || (url =? geoUrl key "irvine") then
         inr {| ok := true; json := inr [irvine] |}
       else if url =? geoUrl key "Down" then
         inr {| ok := false; json := inr [] |}
       else if url =? geoUrl key "Garbled" then
         inr {| ok := true; json := inl syntaxError |}
       else if url =? geoUrl key "Null Island" then
         inr {| ok := true;
                json := inr [{| lat := "0"; lon := "0"; geo_name := "Null Island" |}] |}
       else
         inr {| ok := true; json := inr [] |};
     fetchForecast := fun url =>
       if url =? weatherUrl key "0" "0" then
         inr {| ok := false; json := inl syntaxError |}
       else
         inr {| ok := true; json := inr forecast |} |}.

(** The state after mounting against [net]. *)
Definition mounted : AppState := fst (mount key net).

End Demo.

(** A service whose geocoding body cannot be parsed and whose [json()]
    rejects with a value that is not an [Error]. *)
Definition oddNet : Network :=
  {| fetchGeo := fun _ => inr {| ok := true; json := inl OtherValue |};
     fetchForecast := fun _ => inl OtherValue |}.

(** The state after a first run that fails for lack of a match. *)
Definition neverFound : AppState :=
  fst (fetchWeather Demo.key Demo.net "Nowhereville" initialState).

(** Clear sky with the timestamp on the sunrise second. *)
Definition atSunrise : Current :=
  {| dt := 1700000000; sunrise := 1700000000; sunset := 1700040000;
     temp := 60 # 1; feels_like := 59 # 1; humidity := 55;
     uvi := 0 # 1; wind_speed := 2 # 1;
     weather := [{| main := "Clear"; description := "clear sky" |}] |}.

(** A forecast body with thirty hourly and eight daily points, and a
    service that resolves every name to Irvine and answers with it. *)
Module Sample.

Definition sunny : Condition := {| main := "Clear"; description := "clear sky" |}.
Definition cloudy : Condition :=
  {| main := "Clouds"; description := "scattered clouds" |}.

Definition hour (i : nat) : ForecastItem :=
  {| fi_dt := 1700020000 + 3600 * Z.of_nat i;
     fi_temp := Scalar (inject_Z (70 + Z.of_nat i));
     fi_weather := [sunny] |}.

Definition day (i : nat) : ForecastItem :=
  {| fi_dt := 1700020000 + 86400 * Z.of_nat i;
     fi_temp := MinMax (inject_Z 55) (inject_Z (70 + Z.of_nat i));
     fi_weather := [cloudy] |}.

Definition forecast : WeatherData :=
  {| name := ""; current := Some Demo.clearNoon;
     hourly := map hour (seq 0 30); daily := map day (seq 0 8) |}.

Definition net : Network :=
  {| fetchGeo := fun _ => inr {| ok := true; json := inr [Demo.irvine] |};
     fetchForecast := fun _ => inr {| ok := true; json := inr forecast |} |}.

(** A service whose geocoding request fails with an [Error] that carries
    an empty message. *)
Definition silentNet : Network :=
  {| fetchGeo := fun _ => inl (ErrorInstance "");
     fetchForecast := fun _ => inl (ErrorInstance "") |}.

(** A service that knows Irvine only: every other name has no match. *)
Definition onlyIrvine : Network :=
  {| fetchGeo := fun url =>
       if url =? geoUrl Demo.key "Irvine" then
         inr {| ok := true; json := inr [Demo.irvine] |}
       else
         inr {| ok := true; json := inr [] |};
     fetchForecast := fun _ => inr {| ok := true; json := inr forecast |} |}.

(** The state after mounting against [onlyIrvine]: the weather screen. *)
Definition mounted : AppState := fst (mount Demo.key onlyIrvine).

(** A service whose geocoding endpoint answers with a failure status. *)
Definition downNet : Network :=
  {| fetchGeo := fun _ => inr {| ok := false; json := inr [] |};
     fetchForecast := fun _ => inr {| ok := false; json := inr forecast |} |}.

(** A bundle whose current conditions carry an empty condition list. *)
Definition noConditions : WeatherData :=
  {| name := "Irvine";
     current := Some {| dt := 1700020000; sunrise := 1700000000;
                        sunset := 1700040000; temp := 71 # 1;
                        feels_like := 70 # 1; humidity := 40; uvi := 5 # 1;
                        wind_speed := 3 # 1; weather := [] |};
     hourly := []; daily := [] |}.

End Sample.

(** * Properties *)

(** ** Strings *)

Lemma prefix_iff_append (p s : string) :
  String.prefix p s = true <-> exists post, s = p ++ post.
Proof.
  revert s; induction p as [|a p IH]; intros s.
  - split; [intros _; now exists s | intros _; now destruct s].
  - destruct s as [|b s]; simpl.
    + split; [discriminate | intros [post H]; discriminate].
    + destruct (ascii_dec a b) as [->|Hab].
      * rewrite IH. split; intros [post H]; exists post.
        -- now rewrite H.
        -- now injection H.
      * split; [discriminate | intros [post H]; injection H; intros _ E].
        now elim Hab.
Qed.

Lemma includes_unfold (s x : string) :
  includes s x =
  String.prefix x s
  || match s with
     | EmptyString => false
     | String _ rest => includes rest x
     end.
Proof. destruct s; reflexivity. Qed.

Lemma includes_iff_contains (s x : string) :
  includes s x = true <-> contains s x.
Proof.
  split.
  - induction s as [|c s IH]; rewrite includes_unfold, orb_true_iff.
    + intros [H|H]; [|discriminate].
      apply prefix_iff_append in H as [post H]. now exists "", post.
    + intros [H|H].
      * apply prefix_iff_append in H as [post H]. now exists "", post.
      * destruct (IH H) as (pre & post & E).
        exists (String c pre), post. simpl. now rewrite E.
  - intros (pre & post & E). subst s.
    induction pre as [|c pre IH]; rewrite includes_unfold, orb_true_iff.
    + left. apply prefix_iff_append. now exists post.
    + right. exact IH.
Qed.

Lemma includes_false_iff (s x : string) :
  includes s x = false <-> ~ contains s x.
Proof.
  rewrite <- includes_iff_contains. destruct (includes s x).
  - split; [discriminate | intros H; now elim H].
  - split; [intros _ E; discriminate | reflexivity].
Qed.

Lemma truthy_iff (s : string) : truthy s = true <-> s <> "".
Proof.
  unfold truthy. rewrite negb_true_iff. apply String.eqb_neq.
Qed.

Lemma trimStart_allWhiteSpace (s : string) :
  allWhiteSpace (trimStart s) = allWhiteSpace s.
Proof.
  induction s as [|c s IH]; simpl; [reflexivity|].
  destruct (isWhiteSpace c) eqn:Hc; simpl; [exact IH | now rewrite Hc].
Qed.

Lemma trimEnd_empty_iff (s : string) :
  trimEnd s = "" <-> allWhiteSpace s = true.
Proof.
  induction s as [|c s IH]; simpl; [tauto|].
  rewrite andb_true_iff, <- IH.
  destruct (trimEnd s) as [|d t]; destruct (isWhiteSpace c); split;
    try discriminate; try tauto; intros [? ?]; discriminate.
Qed.

(** A string is all white space exactly when trimming leaves nothing. *)
Lemma trim_empty_iff (s : string) :
  trim s = "" <-> allWhiteSpace s = true.
Proof.
  unfold trim. now rewrite trimEnd_empty_iff, trimStart_allWhiteSpace.
Qed.

Lemma trimStart_split (s : string) :
  exists pre, s = pre ++ trimStart s /\ allWhiteSpace pre = true.
Proof.
  induction s as [|c s (pre & E & Hpre)]; simpl.
  - now exists "".
  - destruct (isWhiteSpace c) eqn:Hc.
    + exists (String c pre). simpl. rewrite Hc, Hpre, <- E. now split.
    + now exists "".
Qed.

Lemma trimEnd_split (s : string) :
  exists post, s = trimEnd s ++ post /\ allWhiteSpace post = true.
Proof.
  induction s as [|c s (post & E & Hpost)]; simpl.
  - now exists "".
  - destruct (trimEnd s) as [|d t] eqn:Ht.
    + destruct (isWhiteSpace c) eqn:Hc.
      * exists (String c s). simpl. rewrite Hc. split; [reflexivity|].
        now apply trimEnd_empty_iff.
      * exists post. simpl in E. subst post. now split.
    + exists post. split; [|exact Hpost]. simpl in *. now rewrite <- E.
Qed.

(** [trim] removes a run of white space at each end and nothing else. *)
Lemma trim_split (s : string) :
  exists pre post,
    s = pre ++ trim s ++ post
    /\ allWhiteSpace pre = true /\ allWhiteSpace post = true.
Proof.
  destruct (trimStart_split s) as (pre & E1 & Hpre).
  destruct (trimEnd_split (trimStart s)) as (post & E2 & Hpost).
  exists pre, post. unfold trim. now rewrite <- E2.
Qed.

Lemma trimStart_head (s : string) (c : ascii) (t : string) :
  trimStart s = String c t -> isWhiteSpace c = false.
Proof.
  induction s as [|d s IH]; simpl; [discriminate|].
  destruct (isWhiteSpace d) eqn:Hd; [exact IH|].
  intros E. injection E as -> _. exact Hd.
Qed.

Lemma trimEnd_head (s : string) (c : ascii) (t : string) :
  trimEnd s = String c t -> exists t', s = String c t'.
Proof.
  destruct s as [|d s]; simpl; [discriminate|].
  destruct (trimEnd s); [destruct (isWhiteSpace d)|];
    try discriminate; intros E; injection E as -> _; now exists s.
Qed.

(** What [trim] returns does not start with white space... *)
Lemma trim_head (s : string) (c : ascii) (t : string) :
  trim s = String c t -> isWhiteSpace c = false.
Proof.
  unfold trim. intros E. apply trimEnd_head in E as [t' E].
  now apply trimStart_head in E.
Qed.

Lemma trimEnd_last (s t : string) (c : ascii) :
  trimEnd s = t ++ String c "" -> isWhiteSpace c = false.
Proof.
  revert t; induction s as [|d s IH]; intros t; simpl.
  - destruct t; discriminate.
  - destruct (trimEnd s) as [|e u] eqn:Hs.
    + destruct (isWhiteSpace d) eqn:Hd.
      * destruct t; discriminate.
      * destruct t as [|a [|b t]]; simpl; try discriminate.
        intros E. injection E as ->. exact Hd.
    + destruct t as [|a t]; simpl; [discriminate|].
      intros E. injection E as _ E. exact (IH t E).
Qed.

(** ... and does not end with white space. *)
Lemma trim_last (s t : string) (c : ascii) :
  trim s = t ++ String c "" -> isWhiteSpace c = false.
Proof. apply trimEnd_last. Qed.

(** ** The [try] block, outcome by outcome *)

(** Unfolds one run of the block after the facts about the network have
    been rewritten into the goal. *)
Ltac run_try :=
  unfold tryBlock, Try.bind, Try.fetch, Try.parse, Try.throw, Try.ret;
  repeat match goal with
         | H : _ = _ |- _ => rewrite H
         end;
  simpl.

Section TryBlock.

Variables (apiKey : string) (net : Network) (cityName : string).

Let geo := geoUrl apiKey cityName.

Lemma tryBlock_geo_rejected (e : Thrown) :
  fetchGeo net geo = inl e ->
  tryBlock apiKey net cityName = ([geo], inl e).
Proof. subst geo. intros H. now run_try. Qed.

Lemma tryBlock_geo_status (r : Response (list GeoMatch)) :
  fetchGeo net geo = inr r -> ok r = false ->
  tryBlock apiKey net cityName = ([geo], inl (ErrorInstance msgGeoFailed)).
Proof. subst geo. intros H Hok. now run_try. Qed.

Lemma tryBlock_geo_body_rejected (r : Response (list GeoMatch)) (e : Thrown) :
  fetchGeo net geo = inr r -> ok r = true -> json r = inl e ->
  tryBlock apiKey net cityName = ([geo], inl e).
Proof. subst geo. intros H Hok Hjson. now run_try. Qed.

Lemma tryBlock_no_match (r : Response (list GeoMatch)) :
  fetchGeo net geo = inr r -> ok r = true -> json r = inr [] ->
  tryBlock apiKey net cityName
  = ([geo], inl (ErrorInstance (msgCityNotFound cityName))).
Proof. subst geo. intros H Hok Hjson. now run_try. Qed.

Section Matched.

Variables (r : Response (list GeoMatch)) (first : GeoMatch) (others : list GeoMatch).
Hypothesis geo_settled : fetchGeo net geo = inr r.
Hypothesis geo_ok : ok r = true.
Hypothesis geo_body : json r = inr (first :: others).

Let forecastUrl := weatherUrl apiKey (lat first) (lon first).

Lemma tryBlock_forecast_rejected (e : Thrown) :
  fetchForecast net forecastUrl = inl e ->
  tryBlock apiKey net cityName = ([geo; forecastUrl], inl e).
Proof. subst geo forecastUrl. intros H. now run_try. Qed.

Lemma tryBlock_forecast_status (w : Response WeatherData) :
  fetchForecast net forecastUrl = inr w -> ok w = false ->
  tryBlock apiKey net cityName
  = ([geo; forecastUrl], inl (ErrorInstance msgForecastFailed)).
Proof. subst geo forecastUrl. intros H Hok. now run_try. Qed.

Lemma tryBlock_forecast_body_rejected (w : Response WeatherData) (e : Thrown) :
  fetchForecast net forecastUrl = inr w -> ok w = true -> json w = inl e ->
  tryBlock apiKey net cityName = ([geo; forecastUrl], inl e).
Proof. subst geo forecastUrl. intros H Hok Hjson. now run_try. Qed.

Lemma tryBlock_success (w : Response WeatherData) (fetched : WeatherData) :
  fetchForecast net forecastUrl = inr w -> ok w = true -> json w = inr fetched ->
  tryBlock apiKey net cityName
  = ([geo; forecastUrl], inr (spread_name fetched (geo_name first))).
Proof. subst geo forecastUrl. intros H Hok Hjson. now run_try. Qed.

End Matched.

(** The block always starts with the geocoding request and issues at
    most one more. *)
Lemma tryBlock_log :
  exists rest, fst (tryBlock apiKey net cityName) = geo :: rest
               /\ (List.length rest <= 1)%nat.
Proof.
  subst geo. unfold tryBlock, Try.bind, Try.fetch, Try.parse, Try.throw, Try.ret.
  destruct (fetchGeo net _) as [e|[[] [e|[|g gs]]]]; simpl;
    try (exists []; split; [reflexivity | simpl; lia]).
  destruct (fetchForecast net _) as [e|[[] [e|w]]]; simpl;
    eexists; (split; [reflexivity | simpl; lia]).
Qed.

End TryBlock.

(** ** [fetchWeather] as a whole *)

Lemma fetchWeather_empty (apiKey : string) (net : Network) (st : AppState) :
  fetchWeather apiKey net "" st = (st, []).
Proof. reflexivity. Qed.

Lemma fetchWeather_placeholder (net : Network) (cityName : string) (st : AppState) :
  truthy cityName = true ->
  fetchWeather API_KEY_PLACEHOLDER net cityName st
  = (setLoading false (setError (Some msgMissingKey) (entered st)), []).
Proof. intros H. unfold fetchWeather. now rewrite H. Qed.

Lemma fetchWeather_configured
  (apiKey : string) (net : Network) (cityName : string) (st : AppState) :
  truthy cityName = true -> apiKey <> API_KEY_PLACEHOLDER ->
  fetchWeather apiKey net cityName st
  = (setLoading false
       match snd (tryBlock apiKey net cityName) with
       | inr data => setWeatherData (Some data) (entered st)
       | inl err => catch err (entered st)
       end,
     fst (tryBlock apiKey net cityName)).
Proof.
  intros Hcity Hkey. unfold fetchWeather. rewrite Hcity. simpl.
  apply String.eqb_neq in Hkey. rewrite Hkey.
  now destruct (tryBlock apiKey net cityName).
Qed.

(** A run never touches [city] or the search field, and it always ends
    with the spinner off unless it returned at once on an empty name. *)
Lemma fetchWeather_frame
  (apiKey : string) (net : Network) (cityName : string) (st : AppState) :
  let st' := fst (fetchWeather apiKey net cityName st) in
  city st' = city st /\ searchInput st' = searchInput st
  /\ (truthy cityName = true -> loading st' = false).
Proof.
  unfold fetchWeather.
  destruct (truthy cityName); simpl; [|repeat split; discriminate].
  destruct (apiKey =? API_KEY_PLACEHOLDER); simpl; [now repeat split|].
  destruct (tryBlock apiKey net cityName) as [log [[m|]|data]]; simpl; now repeat split.
Qed.

(** A run that ends in the [catch] clause keeps whatever bundle was held. *)
Lemma fetchWeather_caught_keeps_data
  (apiKey : string) (net : Network) (cityName : string) (st : AppState) (e : Thrown) :
  snd (tryBlock apiKey net cityName) = inl e ->
  weatherData (fst (fetchWeather apiKey net cityName st)) = weatherData st.
Proof.
  intros H. unfold fetchWeather.
  destruct (truthy cityName); simpl; [|reflexivity].
  destruct (apiKey =? API_KEY_PLACEHOLDER); simpl; [reflexivity|].
  destruct (tryBlock apiKey net cityName) as [log out]; simpl in *. subst out.
  now destruct e.
Qed.

(** ** The pipeline's outcomes *)

(** C1. For every non-empty city name (trimmed or not) and every configured
    credential: when the geocoding call succeeds with a match (exactly one,
    or the first of several) and the forecast call succeeds, the run ends
    Ready, the weather screen is rendered, and the bundle's [name] is the
    [name] of the geocoding match, whatever the submitted text and whatever
    [name] the forecast body carried; the rest of the bundle is the
    forecast body. *)
Theorem fetchWeather_ready
  (apiKey : string) (net : Network) (cityName : string) (st : AppState)
  (r : Response (list GeoMatch)) (place : GeoMatch) (others : list GeoMatch)
  (w : Response WeatherData) (fetched : WeatherData) :
  cityName <> "" ->
  apiKey <> API_KEY_PLACEHOLDER ->
  fetchGeo net (geoUrl apiKey cityName) = inr r ->
  ok r = true ->
  json r = inr (place :: others) ->
  fetchForecast net (weatherUrl apiKey (lat place) (lon place)) = inr w ->
  ok w = true ->
  json w = inr fetched ->
  exists bundle,
    isReady (fst (fetchWeather apiKey net cityName st)) bundle
    /\ name bundle = geo_name place
    /\ current bundle = current fetched
    /\ hourly bundle = hourly fetched
    /\ daily bundle = daily fetched
    /\ renderContent (fst (fetchWeather apiKey net cityName st))
       = WeatherScreen bundle (searchInput st).
Proof.
  intros Hcity Hkey Hgeo Hok Hbody Hfc Hok' Hbody'.
  apply truthy_iff in Hcity.
  rewrite (fetchWeather_configured _ _ _ _ Hcity Hkey).
  rewrite (tryBlock_success _ _ _ _ _ _ Hgeo Hok Hbody _ _ Hfc Hok' Hbody').
  exists (spread_name fetched (geo_name place)). simpl.
  unfold isReady. simpl. repeat split.
Qed.

Lemma fetchWeather_ready_witness :
  exists bundle,
    isReady (fst (fetchWeather Demo.key Demo.net "irvine" initialState)) bundle
    /\ name bundle = "Irvine"
    /\ current bundle = Some Demo.clearNoon
    /\ hourly bundle = []
    /\ daily bundle = []
    /\ renderContent (fst (fetchWeather Demo.key Demo.net "irvine" initialState))
       = WeatherScreen bundle "".
Proof.
  apply (fetchWeather_ready Demo.key Demo.net "irvine" initialState
           {| ok := true; json := inr [Demo.irvine] |} Demo.irvine []
           {| ok := true; json := inr Demo.forecast |} Demo.forecast);
    solve [reflexivity | discriminate].
Defined.

Lemma Rejects_outcome
  (apiKey : string) (net : Network) (cityName : string) (e : Thrown) :
  Rejects apiKey net cityName e ->
  snd (tryBlock apiKey net cityName) = inl e.
Proof.
  intros H; inversion H; subst.
  - now rewrite (tryBlock_geo_rejected _ _ _ e).
  - now rewrite (tryBlock_geo_body_rejected _ _ _ r e).
  - now rewrite (tryBlock_forecast_rejected _ _ _ r first others) with (e := e).
  - now rewrite (tryBlock_forecast_body_rejected _ _ _ r first others) with (w := w) (e := e).
Qed.

(** C2, as the code has it. When [fetch] or [response.json()] rejects at
    either stage, the run ends with the spinner off and [error] set: to
    "An unknown error occurred." when the thrown value is not an [Error]
    instance, and to the instance's own [message] when it is one (a
    SyntaxError from a malformed body, a TypeError from a failed request). *)
Theorem fetchWeather_rejection
  (apiKey : string) (net : Network) (cityName : string) (st : AppState)
  (e : Thrown) :
  cityName <> "" ->
  apiKey <> API_KEY_PLACEHOLDER ->
  Rejects apiKey net cityName e ->
  loading (fst (fetchWeather apiKey net cityName st)) = false
  /\ error (fst (fetchWeather apiKey net cityName st)) = Some (caughtMessage e)
  /\ (e = OtherValue ->
      isError (fst (fetchWeather apiKey net cityName st))
        "An unknown error occurred.")
  /\ (forall message, e = ErrorInstance message ->
      error (fst (fetchWeather apiKey net cityName st)) = Some message).
Proof.
  intros Hcity Hkey Hrej.
  apply truthy_iff in Hcity.
  rewrite (fetchWeather_configured _ _ _ _ Hcity Hkey).
  rewrite (Rejects_outcome _ _ _ _ Hrej).
  destruct e as [m|]; simpl; unfold isError; simpl; repeat split;
    try discriminate.
  intros message E. now injection E as ->.
Qed.

Lemma fetchWeather_rejection_witness :
  loading (fst (fetchWeather Demo.key oddNet "Irvine" initialState)) = false
  /\ error (fst (fetchWeather Demo.key oddNet "Irvine" initialState))
     = Some "An unknown error occurred."
  /\ (OtherValue = OtherValue ->
      isError (fst (fetchWeather Demo.key oddNet "Irvine" initialState))
        "An unknown error occurred.")
  /\ (forall message, OtherValue = ErrorInstance message ->
      error (fst (fetchWeather Demo.key oddNet "Irvine" initialState)) = Some message).
Proof.
  apply (fetchWeather_rejection Demo.key oddNet "Irvine" initialState OtherValue).
  - discriminate.
  - discriminate.
  - apply (GeoJsonRejects _ _ _ {| ok := true; json := inl OtherValue |});
      reflexivity.
Defined.

(** C2, as stated, fails: a malformed body makes [response.json()] reject
    with a SyntaxError, which is an [Error] instance, and the run shows the
    SyntaxError's message, not the generic one. *)
Lemma malformed_json_keeps_its_message :
  Rejects Demo.key Demo.net "Garbled" Demo.syntaxError
  /\ error (fst (fetchWeather Demo.key Demo.net "Garbled" initialState))
     = Some "Unexpected token < in JSON at position 0"
  /\ error (fst (fetchWeather Demo.key Demo.net "Garbled" initialState))
     <> Some "An unknown error occurred.".
Proof.
  split; [|split].
  - apply (GeoJsonRejects _ _ _ {| ok := true; json := inl Demo.syntaxError |});
      reflexivity.
  - reflexivity.
  - vm_compute. discriminate.
Qed.

(** ** Submitting the search field *)

Lemma handleSearch_empty (st : AppState) :
  searchInput st = "" -> handleSearch st = st.
Proof. intros H. unfold handleSearch. now rewrite H. Qed.

Lemma handleSearch_nonempty (st : AppState) :
  searchInput st <> "" ->
  handleSearch st = setSearchInput "" (setCity (trim (searchInput st)) st).
Proof.
  intros H. apply truthy_iff in H. unfold handleSearch. now rewrite H.
Qed.

(** What a white-space-only, non-empty submission does to the two cells
    that [handleSearch] writes. *)
Lemma handleSearch_whitespace (st : AppState) :
  searchInput st <> "" -> allWhiteSpace (searchInput st) = true ->
  city (handleSearch st) = "" /\ searchInput (handleSearch st) = "".
Proof.
  intros Hne Hws. rewrite (handleSearch_nonempty _ Hne). simpl.
  split; [now apply trim_empty_iff | reflexivity].
Qed.

(** C3, as the code has it. Submitting an empty or white-space-only field
    issues no request and leaves the weather data, the loading flag and
    the error as they were; an empty field leaves the whole state as it
    was. *)
Theorem submit_blank
  (apiKey : string) (net : Network) (st : AppState) :
  allWhiteSpace (searchInput st) = true ->
  snd (step apiKey net SubmitEditing st) = []
  /\ weatherData (fst (step apiKey net SubmitEditing st)) = weatherData st
  /\ loading (fst (step apiKey net SubmitEditing st)) = loading st
  /\ error (fst (step apiKey net SubmitEditing st)) = error st
  /\ (searchInput st = "" -> fst (step apiKey net SubmitEditing st) = st).
Proof.
  intros Hws. simpl. unfold useEffect.
  destruct (string_dec (searchInput st) "") as [Hempty|Hne].
  - rewrite (handleSearch_empty _ Hempty), String.eqb_refl. simpl.
    now repeat split.
  - destruct (handleSearch_whitespace _ Hne Hws) as [Hcity Hfield].
    rewrite Hcity.
    assert (Hframe : weatherData (handleSearch st) = weatherData st
                     /\ loading (handleSearch st) = loading st
                     /\ error (handleSearch st) = error st)
      by (rewrite (handleSearch_nonempty _ Hne); now repeat split).
    destruct ("" =? city st); simpl; repeat split; try tauto; contradiction.
Qed.

Lemma submit_blank_witness :
  (snd (step Demo.key Sample.onlyIrvine SubmitEditing (setSearchInput "   " Sample.mounted)) = []
   /\ weatherData (fst (step Demo.key Sample.onlyIrvine SubmitEditing
                          (setSearchInput "   " Sample.mounted)))
      = weatherData Sample.mounted
   /\ loading (fst (step Demo.key Sample.onlyIrvine SubmitEditing
                      (setSearchInput "   " Sample.mounted))) = false
   /\ error (fst (step Demo.key Sample.onlyIrvine SubmitEditing
                    (setSearchInput "   " Sample.mounted))) = None)
  /\ fst (step Demo.key Sample.onlyIrvine SubmitEditing Sample.mounted) = Sample.mounted.
Proof.
  split.
  - destruct (submit_blank Demo.key Sample.onlyIrvine (setSearchInput "   " Sample.mounted))
      as (Hlog & Hdata & Hload & Herr & _); [reflexivity|].
    repeat split; assumption.
  - apply (submit_blank Demo.key Sample.onlyIrvine Sample.mounted); reflexivity.
Defined.

(** C3, as stated, fails: on the weather screen shown after a successful
    mount, typing three spaces and confirming sets the current city to the
    empty string and empties the search field. *)
Lemma whitespace_submission_changes_state :
  let before := setSearchInput "   " Sample.mounted in
  let after := fst (step Demo.key Sample.onlyIrvine SubmitEditing before) in
  Index Sample.mounted <> None /\ Index before <> None
  /\ allWhiteSpace (searchInput before) = true
  /\ city before = "Irvine" /\ city after = ""
  /\ searchInput before = "   " /\ searchInput after = ""
  /\ after <> before.
Proof.
  vm_compute. repeat split; discriminate.
Qed.

(** ** Rendering outside the Ready state *)

(** C4, as the code has it. A state that holds no bundle is rendered
    over the default gradient and shows no weather data. An Error state is
    rendered as the error message and the search field, and a Loading
    state as the spinner, over the gradient that [bgColors] derives from
    whatever bundle is held (the render throws where that derivation
    does); the held bundle reaches the render of such a state through
    that gradient only. *)
Theorem not_ready_render (st : AppState) :
  (weatherData st = None ->
   bgColors (weatherData st) = Some defaultColors
   /\ exists body,
        Index st = Some (defaultColors, body)
        /\ forall view, body <> WeatherBody view)
  /\ (forall message, isError st message ->
      Index st
      = option_map (fun colors => (colors, ErrorBody message (searchInput st)))
          (bgColors (weatherData st)))
  /\ (isLoading st ->
      Index st
      = option_map (fun colors => (colors, SpinnerBody))
          (bgColors (weatherData st))).
Proof.
  split; [|split].
  - intros H. unfold Index, renderContent. rewrite H. simpl.
    split; [reflexivity|].
    destruct (loading st); [|destruct (truthyError (error st))];
      eexists; (split; [reflexivity | discriminate]).
  - intros message (Hload & Herr & Htruthy).
    unfold Index, renderContent. rewrite Hload, Herr. simpl. rewrite Htruthy.
    now destruct (bgColors (weatherData st)).
  - intros Hload. unfold isLoading in Hload.
    unfold Index, renderContent. rewrite Hload.
    now destruct (bgColors (weatherData st)).
Qed.

Lemma not_ready_render_witness :
  (bgColors (weatherData (fst (mount Demo.key Sample.downNet)))
   = Some defaultColors
   /\ exists body,
        Index (fst (mount Demo.key Sample.downNet)) = Some (defaultColors, body)
        /\ forall view, body <> WeatherBody view)
  /\ Index (fst (mount Demo.key Sample.downNet))
     = Some (defaultColors, ErrorBody "Failed to fetch city coordinates." "")
  /\ Index initialState = Some (defaultColors, SpinnerBody).
Proof.
  split; [|split].
  - apply (proj1 (not_ready_render (fst (mount Demo.key Sample.downNet)))).
    reflexivity.
  - apply (proj1 (proj2 (not_ready_render (fst (mount Demo.key Sample.downNet))))
             "Failed to fetch city coordinates.").
    repeat split.
  - apply (proj2 (proj2 (not_ready_render initialState))). reflexivity.
Defined.

(** C4, as stated, fails: the mount succeeds and shows the weather screen;
    typing a name that has no match and confirming it leads to the error
    screen, and that screen is rendered over the gradient of the bundle
    fetched on mount (clear sky, day), which is still held, not over the
    default one. Every render on the way goes through. *)
Lemma stale_bundle_colours_the_error_screen :
  let typed := setSearchInput "Nowhereville" Sample.mounted in
  let st := fst (session Demo.key Sample.onlyIrvine
                   [ChangeText "Nowhereville"; SubmitEditing]) in
  Index Sample.mounted <> None /\ Index typed <> None
  /\ st = fst (step Demo.key Sample.onlyIrvine SubmitEditing typed)
  /\ isError st (msgCityNotFound "Nowhereville")
  /\ weatherData st = weatherData Sample.mounted
  /\ Index st
     = Some (["#4a90e2"; "#81c7f5"],
             ErrorBody (msgCityNotFound "Nowhereville") "")
  /\ fst (render st) <> Some defaultColors.
Proof.
  vm_compute. repeat split; discriminate.
Qed.

(** ** Theme derivation *)

Lemma themeColors_firstMatch (condition : string) (day : bool) :
  themeColors condition day
  = firstMatch rules ["#4c669f"; "#3b5998"; "#192f6a"] condition day.
Proof.
  unfold themeColors, rules, firstMatch, triggers, byDay, byNight.
  destruct (includes condition "Clear"); [reflexivity|].
  destruct (includes condition "Clouds"); [reflexivity|].
  destruct (includes condition "Rain" || includes condition "Drizzle");
    [now destruct day|].
  destruct (includes condition "Snow"); [now destruct day | reflexivity].
Qed.

(** C5. The gradient of a bundle is the theme of its primary condition
    and its day flag, and the theme is the first matching rule of the
    table, in the order Clear, Clouds, Rain or Drizzle, Snow, with the
    three-stop default when none matches. Spelled out on "contains": a
    condition containing "Clear" gets the Clear colours even when it also
    contains "Clouds". *)
Theorem themeColors_rules (condition : string) (day : bool) :
  (forall data cur primary others,
      current data = Some cur -> weather cur = primary :: others ->
      main primary = condition -> isDay cur = day ->
      bgColors (Some data) = Some (themeColors condition day))
  /\ themeColors condition day
     = firstMatch rules ["#4c669f"; "#3b5998"; "#192f6a"] condition day
  /\ (contains condition "Clear" ->
      themeColors condition day
      = if day then ["#4a90e2"; "#81c7f5"] else ["#0c1445"; "#3b5998"])
  /\ (~ contains condition "Clear" -> contains condition "Clouds" ->
      themeColors condition day
      = if day then ["#6c7a89"; "#95a5a6"] else ["#2c3e50"; "#34495e"])
  /\ (~ contains condition "Clear" -> ~ contains condition "Clouds" ->
      contains condition "Rain" \/ contains condition "Drizzle" ->
      themeColors condition day = ["#546e7a"; "#37474f"])
  /\ (~ contains condition "Clear" -> ~ contains condition "Clouds" ->
      ~ contains condition "Rain" -> ~ contains condition "Drizzle" ->
      contains condition "Snow" ->
      themeColors condition day = ["#b0c4de"; "#a4b0be"])
  /\ (~ contains condition "Clear" -> ~ contains condition "Clouds" ->
      ~ contains condition "Rain" -> ~ contains condition "Drizzle" ->
      ~ contains condition "Snow" ->
      themeColors condition day = ["#4c669f"; "#3b5998"; "#192f6a"])
  /\ (contains condition "Clear" -> contains condition "Clouds" ->
      themeColors condition day
      = if day then ["#4a90e2"; "#81c7f5"] else ["#0c1445"; "#3b5998"]).
Proof.
  repeat match goal with |- _ /\ _ => split end.
  - intros data cur primary others Hcur Hw Hmain Hday.
    unfold bgColors. now rewrite Hcur, Hw, Hmain, Hday.
  - apply themeColors_firstMatch.
  - intros H. apply includes_iff_contains in H.
    unfold themeColors. now rewrite H.
  - intros H1 H2. apply includes_false_iff in H1.
    apply includes_iff_contains in H2.
    unfold themeColors. now rewrite H1, H2.
  - intros H1 H2 H3. apply includes_false_iff in H1, H2.
    rewrite <- !includes_iff_contains, <- orb_true_iff in H3.
    unfold themeColors. now rewrite H1, H2, H3.
  - intros H1 H2 H3 H4 H5. apply includes_false_iff in H1, H2, H3, H4.
    apply includes_iff_contains in H5.
    unfold themeColors. now rewrite H1, H2, H3, H4, H5.
  - intros H1 H2 H3 H4 H5. apply includes_false_iff in H1, H2, H3, H4, H5.
    unfold themeColors. now rewrite H1, H2, H3, H4, H5.
  - intros H _. apply includes_iff_contains in H.
    unfold themeColors. now rewrite H.
Qed.

Lemma themeColors_rules_witness :
  themeColors "Clear, then Clouds" true = ["#4a90e2"; "#81c7f5"]
  /\ themeColors "Clouds" false = ["#2c3e50"; "#34495e"]
  /\ themeColors "Drizzle" false = ["#546e7a"; "#37474f"]
  /\ bgColors (Some Demo.forecast) = Some (themeColors "Clear" true).
Proof.
  repeat match goal with |- _ /\ _ => split end.
  - apply (themeColors_rules "Clear, then Clouds" true).
    + now exists "", ", then Clouds".
    + now exists "Clear, then ", "".
  - apply (proj1 (proj2 (proj2 (proj2 (themeColors_rules "Clouds" false))))).
    + apply includes_false_iff. reflexivity.
    + now exists "", "".
  - apply (proj1 (proj2 (proj2 (proj2 (proj2 (themeColors_rules "Drizzle" false)))))).
    + apply includes_false_iff. reflexivity.
    + apply includes_false_iff. reflexivity.
    + right. now exists "", "".
  - apply (proj1 (themeColors_rules "Clear" true)
             Demo.forecast Demo.clearNoon
             {| main := "Clear"; description := "clear sky" |} []);
      reflexivity.
Defined.

(** ** The enumerated failures *)

(** The pipeline interpolates its argument as it is: for every non-empty
    city name handed to [fetchWeather] whose geocoding call returns an
    empty array, the run ends in the Error state and the message is the
    fixed prefix, a double quote, that name, and a double quote. Only the
    geocoding request was made. *)
Lemma fetchWeather_city_not_found
  (apiKey : string) (net : Network) (cityName : string) (st : AppState)
  (r : Response (list GeoMatch)) :
  cityName <> "" ->
  apiKey <> API_KEY_PLACEHOLDER ->
  fetchGeo net (geoUrl apiKey cityName) = inr r ->
  ok r = true ->
  json r = inr [] ->
  isError (fst (fetchWeather apiKey net cityName st))
    ("Could not find city: " ++ dquote ++ cityName ++ dquote)
  /\ renderContent (fst (fetchWeather apiKey net cityName st))
     = ErrorScreen ("Could not find city: " ++ dquote ++ cityName ++ dquote)
         (searchInput st)
  /\ snd (fetchWeather apiKey net cityName st) = [geoUrl apiKey cityName].
Proof.
  intros Hcity Hkey Hgeo Hok Hbody.
  apply truthy_iff in Hcity.
  rewrite (fetchWeather_configured _ _ _ _ Hcity Hkey).
  rewrite (tryBlock_no_match _ _ _ _ Hgeo Hok Hbody).
  unfold isError, renderContent. simpl. repeat split.
Qed.

(** C6, as the code has it. What reaches the pipeline from the search
    field is the trimmed text. For every submitted text whose trimmed form
    is not empty and differs from the current city, when the geocoding
    call made for the trimmed text returns an empty array, the state after
    the submission is the Error state whose message is the fixed prefix, a
    double quote, the trimmed text, and a double quote; the one request is
    the geocoding request for the trimmed text. On mount the name is the
    initial city, as it is. *)
Theorem submit_city_not_found
  (apiKey : string) (net : Network) :
  apiKey <> API_KEY_PLACEHOLDER ->
  (forall (text : string) (st : AppState) (r : Response (list GeoMatch)),
      trim text <> "" ->
      trim text <> city st ->
      fetchGeo net (geoUrl apiKey (trim text)) = inr r ->
      ok r = true ->
      json r = inr [] ->
      isError (fst (submitText apiKey net text st))
        ("Could not find city: " ++ dquote ++ trim text ++ dquote)
      /\ snd (submitText apiKey net text st) = [geoUrl apiKey (trim text)]
      /\ city (fst (submitText apiKey net text st)) = trim text
      /\ searchInput (fst (submitText apiKey net text st)) = "")
  /\ (forall r : Response (list GeoMatch),
        fetchGeo net (geoUrl apiKey "Irvine") = inr r ->
        ok r = true ->
        json r = inr [] ->
        isError (fst (mount apiKey net))
          ("Could not find city: " ++ dquote ++ "Irvine" ++ dquote)
        /\ snd (mount apiKey net) = [geoUrl apiKey "Irvine"]).
Proof.
  intros Hkey. split.
  - intros text st r Htrim Hnew Hgeo Hok Hbody.
    assert (Htext : truthy text = true).
    { apply truthy_iff. intros ->. now apply Htrim. }
    unfold submitText. simpl. unfold useEffect, handleSearch. simpl.
    rewrite Htext. simpl.
    apply String.eqb_neq in Hnew. rewrite Hnew.
    destruct (fetchWeather_city_not_found apiKey net (trim text)
                (setSearchInput "" (setCity (trim text) (setSearchInput text st)))
                r Htrim Hkey Hgeo Hok Hbody) as (Herr & _ & Hlog).
    destruct (fetchWeather_frame apiKey net (trim text)
                (setSearchInput "" (setCity (trim text) (setSearchInput text st))))
      as (Hcity & Hfield & _).
    destruct (fetchWeather apiKey net (trim text) _) as [st' log'].
    cbn [fst snd] in *. rewrite app_nil_r.
    split; [exact Herr | split; [exact Hlog | split; assumption]].
  - intros r Hgeo Hok Hbody. unfold mount.
    destruct (fetchWeather_city_not_found apiKey net "Irvine" initialState r)
      as (Herr & _ & Hlog); try assumption; [discriminate|].
    now split.
Qed.

Lemma submit_city_not_found_witness :
  isError (fst (submitText Demo.key Sample.onlyIrvine "  Nowhereville " Sample.mounted))
    ("Could not find city: " ++ dquote ++ "Nowhereville" ++ dquote)
  /\ snd (submitText Demo.key Sample.onlyIrvine "  Nowhereville " Sample.mounted)
     = [geoUrl Demo.key "Nowhereville"]
  /\ city (fst (submitText Demo.key Sample.onlyIrvine "  Nowhereville " Sample.mounted))
     = "Nowhereville"
  /\ searchInput
       (fst (submitText Demo.key Sample.onlyIrvine "  Nowhereville " Sample.mounted))
     = "".
Proof.
  assert (Hkey : Demo.key <> API_KEY_PLACEHOLDER) by discriminate.
  apply (proj1 (submit_city_not_found Demo.key Sample.onlyIrvine Hkey)
           "  Nowhereville " Sample.mounted {| ok := true; json := inr [] |});
    solve [reflexivity | discriminate].
Defined.

(** C6, as stated, fails: on the weather screen shown after a successful
    mount, the text submitted is "Nowhereville" with two spaces before and
    one after; geocoding has no match; the message names the trimmed text,
    not the text as submitted. *)
Lemma submitted_text_is_trimmed_in_message :
  let text := "  Nowhereville " in
  let st := fst (submitText Demo.key Sample.onlyIrvine text Sample.mounted) in
  Index Sample.mounted <> None
  /\ fetchGeo Sample.onlyIrvine (geoUrl Demo.key (trim text))
     = inr {| ok := true; json := inr [] |}
  /\ snd (submitText Demo.key Sample.onlyIrvine text Sample.mounted)
     = [geoUrl Demo.key "Nowhereville"]
  /\ error st = Some ("Could not find city: " ++ dquote ++ "Nowhereville" ++ dquote)
  /\ error st <> Some ("Could not find city: " ++ dquote ++ text ++ dquote).
Proof.
  vm_compute. repeat split; discriminate.
Qed.

(** C7. The day flag holds exactly when the current timestamp lies
    strictly between sunrise and sunset; a bundle whose timestamp equals
    its sunrise or its sunset is a night bundle and gets the night
    colours of its condition. *)
Theorem isDay_strict (cur : Current) :
  (isDay cur = true <-> (sunrise cur < dt cur < sunset cur)%Z)
  /\ (dt cur = sunrise cur \/ dt cur = sunset cur -> isDay cur = false)
  /\ (forall data primary others,
        dt cur = sunrise cur \/ dt cur = sunset cur ->
        current data = Some cur -> weather cur = primary :: others ->
        bgColors (Some data) = Some (themeColors (main primary) false)).
Proof.
  assert (Hiff : isDay cur = true <-> (sunrise cur < dt cur < sunset cur)%Z).
  { unfold isDay. rewrite andb_true_iff, Z.gtb_lt, Z.ltb_lt. tauto. }
  assert (Hedge : dt cur = sunrise cur \/ dt cur = sunset cur -> isDay cur = false).
  { intros H. apply not_true_is_false. intros E. apply Hiff in E. lia. }
  split; [exact Hiff | split; [exact Hedge|]].
  intros data primary others H Hcur Hw.
  unfold bgColors. now rewrite Hcur, Hw, (Hedge H).
Qed.

Lemma isDay_strict_witness :
  isDay atSunrise = false
  /\ isDay Demo.clearNoon = true
  /\ bgColors (Some {| name := "Irvine"; current := Some atSunrise;
                       hourly := []; daily := [] |})
     = Some ["#0c1445"; "#3b5998"].
Proof.
  split; [|split].
  - apply (proj1 (proj2 (isDay_strict atSunrise))). left. reflexivity.
  - apply (proj1 (isDay_strict Demo.clearNoon)). simpl. lia.
  - apply (proj2 (proj2 (isDay_strict atSunrise))
             {| name := "Irvine"; current := Some atSunrise;
                hourly := []; daily := [] |}
             {| main := "Clear"; description := "clear sky" |} []).
    + left. reflexivity.
    + reflexivity.
    + reflexivity.
Defined.

(** C8. A geocoding response that is not ok ends the run in the Error
    state with "Failed to fetch city coordinates."; a forecast response
    that is not ok ends it in the Error state with the API-key message;
    the errors of any two runs that fail in these two ways differ. *)
Theorem fetchWeather_http_failures
  (apiKey1 apiKey2 : string) (net1 net2 : Network)
  (cityName1 cityName2 : string) (st1 st2 : AppState)
  (r1 r2 : Response (list GeoMatch)) (first : GeoMatch) (others : list GeoMatch)
  (w : Response WeatherData) :
  cityName1 <> "" -> apiKey1 <> API_KEY_PLACEHOLDER ->
  cityName2 <> "" -> apiKey2 <> API_KEY_PLACEHOLDER ->
  fetchGeo net1 (geoUrl apiKey1 cityName1) = inr r1 ->
  ok r1 = false ->
  fetchGeo net2 (geoUrl apiKey2 cityName2) = inr r2 ->
  ok r2 = true ->
  json r2 = inr (first :: others) ->
  fetchForecast net2 (weatherUrl apiKey2 (lat first) (lon first)) = inr w ->
  ok w = false ->
  isError (fst (fetchWeather apiKey1 net1 cityName1 st1))
    "Failed to fetch city coordinates."
  /\ isError (fst (fetchWeather apiKey2 net2 cityName2 st2))
       "API Key Error. Ensure it is valid and authorized for One Call API."
  /\ error (fst (fetchWeather apiKey1 net1 cityName1 st1))
     <> error (fst (fetchWeather apiKey2 net2 cityName2 st2)).
Proof.
  intros Hc1 Hk1 Hc2 Hk2 Hgeo1 Hok1 Hgeo2 Hok2 Hbody2 Hfc Hokw.
  apply truthy_iff in Hc1, Hc2.
  rewrite (fetchWeather_configured _ _ _ _ Hc1 Hk1).
  rewrite (fetchWeather_configured _ _ _ _ Hc2 Hk2).
  rewrite (tryBlock_geo_status _ _ _ _ Hgeo1 Hok1).
  rewrite (tryBlock_forecast_status _ _ _ _ _ _ Hgeo2 Hok2 Hbody2 _ Hfc Hokw).
  unfold isError. simpl. repeat split. discriminate.
Qed.

Lemma fetchWeather_http_failures_witness :
  isError (fst (fetchWeather Demo.key Demo.net "Down" initialState))
    "Failed to fetch city coordinates."
  /\ isError (fst (fetchWeather Demo.key Demo.net "Null Island" Demo.mounted))
       "API Key Error. Ensure it is valid and authorized for One Call API."
  /\ error (fst (fetchWeather Demo.key Demo.net "Down" initialState))
     <> error (fst (fetchWeather Demo.key Demo.net "Null Island" Demo.mounted)).
Proof.
  apply (fetchWeather_http_failures Demo.key Demo.key Demo.net Demo.net
           "Down" "Null Island" initialState Demo.mounted
           {| ok := false; json := inr [] |}
           {| ok := true;
              json := inr [{| lat := "0"; lon := "0"; geo_name := "Null Island" |}] |}
           {| lat := "0"; lon := "0"; geo_name := "Null Island" |} []
           {| ok := false; json := inl Demo.syntaxError |});
    solve [reflexivity | discriminate].
Defined.

(** ** The search handler *)

(** C9. For every submission of a non-empty search field, whatever the
    network then answers (so in particular when the city resolves), the
    state after the handler and the run it triggers has the search field
    empty and the current city equal to the trimmed submitted text. The
    handler makes both writes or neither. *)
Theorem submit_clears_field_and_sets_city
  (apiKey : string) (net : Network) (st : AppState) :
  (searchInput st <> "" ->
   searchInput (fst (step apiKey net SubmitEditing st)) = ""
   /\ city (fst (step apiKey net SubmitEditing st)) = trim (searchInput st))
  /\ (handleSearch st = st
      \/ (searchInput (handleSearch st) = ""
          /\ city (handleSearch st) = trim (searchInput st))).
Proof.
  split.
  - intros Hne. simpl. unfold useEffect.
    rewrite (handleSearch_nonempty _ Hne). simpl.
    destruct (trim (searchInput st) =? city st); simpl; [now split|].
    destruct (fetchWeather_frame apiKey net (trim (searchInput st))
                (setSearchInput "" (setCity (trim (searchInput st)) st)))
      as (Hcity & Hfield & _).
    now rewrite Hcity, Hfield.
  - destruct (string_dec (searchInput st) "") as [Hempty|Hne].
    + left. now apply handleSearch_empty.
    + right. now rewrite (handleSearch_nonempty _ Hne).
Qed.

Lemma submit_clears_field_and_sets_city_witness :
  let typed := setSearchInput "  irvine " neverFound in
  searchInput (fst (step Demo.key Demo.net SubmitEditing typed)) = ""
  /\ city (fst (step Demo.key Demo.net SubmitEditing typed)) = "irvine".
Proof.
  apply (proj1 (submit_clears_field_and_sets_city Demo.key Demo.net
                  (setSearchInput "  irvine " neverFound))).
  discriminate.
Defined.

(** ** The geocoding request *)

(** C10. For every non-empty city name and configured credential, the
    first request of a run is the geocoding URL, and that URL is the fixed
    text up to [q=], then the name exactly as given, then the limit and
    credential parameters: no character of the name is escaped. *)
Theorem geoUrl_verbatim
  (apiKey : string) (net : Network) (cityName : string) (st : AppState) :
  cityName <> "" ->
  apiKey <> API_KEY_PLACEHOLDER ->
  exists rest,
    snd (fetchWeather apiKey net cityName st)
    = ("https://api.openweathermap.org/geo/1.0/direct?q=" ++ cityName
       ++ "&limit=1&appid=" ++ apiKey) :: rest.
Proof.
  intros Hcity Hkey. apply truthy_iff in Hcity.
  rewrite (fetchWeather_configured _ _ _ _ Hcity Hkey). simpl.
  destruct (tryBlock_log apiKey net cityName) as (rest & E & _).
  exists rest. exact E.
Qed.

Lemma geoUrl_verbatim_witness :
  exists rest,
    snd (fetchWeather Demo.key Demo.net "St. John's & Co #1" initialState)
    = "https://api.openweathermap.org/geo/1.0/direct?q=St. John's & Co #1&limit=1&appid=0123456789abcdef"
      :: rest.
Proof.
  apply (geoUrl_verbatim Demo.key Demo.net "St. John's & Co #1" initialState);
    discriminate.
Defined.

(** ** The credential as shipped *)

(** With the credential left at the placeholder, as the repository has
    it, every run for a non-empty city ends with the missing-key message
    and issues no request. *)
Lemma fetchWeather_shipped_key (net : Network) (cityName : string) (st : AppState) :
  cityName <> "" ->
  isError (fst (fetchWeather API_KEY net cityName st))
    "Please add your OpenWeatherMap API key."
  /\ snd (fetchWeather API_KEY net cityName st) = [].
Proof.
  intros H. apply truthy_iff in H.
  change API_KEY with API_KEY_PLACEHOLDER.
  rewrite (fetchWeather_placeholder _ _ _ H). unfold isError. simpl.
  repeat split.
Qed.

(** * Further properties of the component *)

(** ** The weather icon *)

Ltac to_includes :=
  repeat match goal with
         | H : contains _ _ |- _ => apply includes_iff_contains in H
         | H : ~ contains _ _ |- _ => apply includes_false_iff in H
         end.

Ltac settle_icon :=
  unfold WeatherIcon, includesOpt; simpl;
  repeat match goal with
         | H : includes _ _ = _ |- _ => rewrite H; clear H
         end;
  repeat match goal with
         | |- context [includes ?c ?k] => destruct (includes c k)
         end;
  reflexivity.

(** The [if]s of [WeatherIcon] are not chained, so the last one whose
    keyword occurs decides: Mist, Fog or Haze give the cloud whatever else
    the condition contains; failing those, Thunderstorm gives the lightning
    cloud; then Snow, Drizzle, Rain and Clouds in that order; a condition
    with none of these (with or without Clear) gives the sun. *)
Theorem WeatherIcon_priority (c : string) (size : option Z) :
  (contains c "Mist" \/ contains c "Fog" \/ contains c "Haze" ->
   icon (WeatherIcon (Some c) size) = Cloud)
  /\ (~ contains c "Mist" -> ~ contains c "Fog" -> ~ contains c "Haze" ->
      (contains c "Thunderstorm" ->
       icon (WeatherIcon (Some c) size) = CloudLightning)
      /\ (~ contains c "Thunderstorm" ->
          (contains c "Snow" -> icon (WeatherIcon (Some c) size) = CloudSnow)
          /\ (~ contains c "Snow" ->
              (contains c "Drizzle" ->
               icon (WeatherIcon (Some c) size) = CloudDrizzle)
              /\ (~ contains c "Drizzle" ->
                  (contains c "Rain" ->
                   icon (WeatherIcon (Some c) size) = CloudRain)
                  /\ (~ contains c "Rain" ->
                      (contains c "Clouds" ->
                       icon (WeatherIcon (Some c) size) = Cloud)
                      /\ (~ contains c "Clouds" ->
                          icon (WeatherIcon (Some c) size) = Sun)))))).
Proof.
  split.
  - intros [H|[H|H]]; to_includes; settle_icon.
  - intros M F Hz. split; [intros T | intros T; split; [intros S | intros S; split;
      [intros D | intros D; split; [intros R | intros R; split; intros K]]]];
      to_includes; settle_icon.
Qed.

Lemma WeatherIcon_priority_witness :
  icon (WeatherIcon (Some "Thunderstorm in Haze") None) = Cloud
  /\ icon (WeatherIcon (Some "Rain, Thunderstorm") (Some 28%Z)) = CloudLightning
  /\ icon (WeatherIcon (Some "Tornado") None) = Sun.
Proof.
  split; [|split].
  - apply (proj1 (WeatherIcon_priority "Thunderstorm in Haze" None)).
    right. right. now exists "Thunderstorm in ", "".
  - apply (proj2 (WeatherIcon_priority "Rain, Thunderstorm" (Some 28%Z)));
      try (apply includes_false_iff; reflexivity).
    now exists "Rain, ", "".
  - apply (proj2 (WeatherIcon_priority "Tornado" None));
      apply includes_false_iff; reflexivity.
Defined.

(** The icon and the gradient rank the keywords in opposite directions:
    for a condition that contains both "Clear" and "Clouds" and no later
    icon keyword, the gradient is the clear-sky one while the icon is the
    cloud. *)
Theorem icon_and_gradient_disagree (c : string) (day : bool) (size : option Z) :
  contains c "Clear" -> contains c "Clouds" ->
  ~ contains c "Rain" -> ~ contains c "Drizzle" -> ~ contains c "Snow" ->
  ~ contains c "Thunderstorm" ->
  ~ contains c "Mist" -> ~ contains c "Fog" -> ~ contains c "Haze" ->
  themeColors c day
  = (if day then ["#4a90e2"; "#81c7f5"] else ["#0c1445"; "#3b5998"])
  /\ icon (WeatherIcon (Some c) size) = Cloud.
Proof.
  intros. to_includes. split.
  - unfold themeColors.
    repeat match goal with
           | H : includes _ _ = _ |- _ => rewrite H; clear H
           end.
    reflexivity.
  - settle_icon.
Qed.

Lemma icon_and_gradient_disagree_witness :
  themeColors "Clear, later Clouds" true = ["#4a90e2"; "#81c7f5"]
  /\ icon (WeatherIcon (Some "Clear, later Clouds") None) = Cloud.
Proof.
  apply (icon_and_gradient_disagree "Clear, later Clouds" true None);
    try (apply includes_false_iff; reflexivity).
  - now exists "", ", later Clouds".
  - now exists "Clear, later ", "".
Defined.

(** ** The bar of a daily row *)


(** The bar is never narrower than 0% nor wider than 100%, whatever the
    temperatures are. *)
Theorem barWidth_bounds (t : Temp) :
  (0 <= barWidth t /\ barWidth t <= 100)%Q.
Proof.
  destruct t as [x|lo hi]; simpl.
  - split; [apply Qle_refl | discriminate].
  - split; [apply Q.le_max_l|].
    apply Q.max_lub; [discriminate | apply Q.le_min_l].
Qed.



(** ** Lists as the screen reads them *)

Lemma slice_nth {A : Type} (start end_ : nat) (l : list A) (i : nat) :
  nth_error (slice start end_ l) i
  = if (i <? end_ - start)%nat then nth_error l (start + i) else None.
Proof.
  unfold slice. rewrite nth_error_firstn.
  destruct (i <? end_ - start)%nat; [apply nth_error_skipn | reflexivity].
Qed.

Lemma slice_length {A : Type} (start end_ : nat) (l : list A) :
  List.length (slice start end_ l)
  = Nat.min (end_ - start) (List.length l - start).
Proof. unfold slice. now rewrite length_firstn, length_skipn. Qed.

Lemma mapFrom_nth {A B : Type} (f : A -> nat -> B) (l : list A) (k i : nat) :
  nth_error (mapFrom f k l) i
  = option_map (fun a => f a (k + i)%nat) (nth_error l i).
Proof.
  revert k i; induction l as [|a l IH]; intros k [|i]; simpl; try reflexivity.
  - now rewrite Nat.add_0_r.
  - rewrite IH. now replace (S k + i)%nat with (k + S i)%nat by lia.
Qed.

Lemma mapFrom_length {A B : Type} (f : A -> nat -> B) (l : list A) (k : nat) :
  List.length (mapFrom f k l) = List.length l.
Proof. revert k; induction l as [|a l IH]; intros k; simpl; auto. Qed.

Lemma allRendered_map {A : Type} (l : list (option A)) (r : list A) :
  allRendered l = Some r <-> l = map Some r.
Proof.
  revert r; induction l as [|[a|] l IH]; intros r; simpl.
  - split; [intros E; now injection E as <- | now destruct r].
  - destruct (allRendered l) as [done|].
    + split.
      * intros E. injection E as <-. simpl. f_equal. now apply IH.
      * destruct r as [|b r]; simpl; [discriminate|].
        intros E. injection E as -> E. apply IH in E. now injection E as ->.
    + split; [discriminate|].
      destruct r as [|b r]; simpl; [discriminate|].
      intros E. injection E as _ E. apply IH in E. discriminate.
  - split; [discriminate | now destruct r].
Qed.

Lemma allRendered_nth {A : Type} (l : list (option A)) (r : list A) (i : nat) :
  allRendered l = Some r ->
  nth_error l i = option_map Some (nth_error r i).
Proof. intros E. apply allRendered_map in E. subst l. apply nth_error_map. Qed.

Lemma allRendered_length {A : Type} (l : list (option A)) (r : list A) :
  allRendered l = Some r -> List.length r = List.length l.
Proof. intros E. apply allRendered_map in E. subst l. now rewrite length_map. Qed.

(** The children render exactly when none of them throws. *)
Lemma allRendered_defined {A : Type} (l : list (option A)) :
  allRendered l <> None <-> forall i, nth_error l i <> Some None.
Proof.
  induction l as [|[a|] l IH]; simpl.
  - split; [intros _ [|i]; discriminate | discriminate].
  - destruct (allRendered l) as [done|].
    + split; [|discriminate]. intros _ [|i]; simpl; [discriminate|].
      apply IH. discriminate.
    + split; [intros H; now elim H|].
      intros H. apply IH. intros i. exact (H (S i)).
  - split; [intros H; now elim H | intros H; now elim (H 0%nat)].
Qed.

Lemma Some_eq_option_map_Some {A : Type} (x y : option A) :
  Some x = option_map Some y -> x = y.
Proof. destruct y; simpl; intros E; [now injection E | discriminate]. Qed.

(** ** The weather screen *)

Lemma hourlyChildren_nth (data : WeatherData) (i : nat) :
  nth_error (hourlyChildren data) i
  = if (i <? 24)%nat
    then option_map (fun item => HourlyForecastItem item (i =? 0)%nat)
           (nth_error (hourly data) i)
    else None.
Proof.
  unfold hourlyChildren, mapIndexed. rewrite mapFrom_nth, slice_nth. simpl.
  now destruct (i <? 24)%nat.
Qed.

Lemma dailyChildren_nth (data : WeatherData) (i : nat) :
  nth_error (dailyChildren data) i
  = if (i <? 7)%nat
    then option_map DailyForecastItem (nth_error (daily data) (S i))
    else None.
Proof.
  unfold dailyChildren. rewrite nth_error_map, slice_nth. simpl.
  now destruct (i <? 7)%nat.
Qed.

Lemma weatherView_inv (data : WeatherData) (field : string) (view : WeatherView) :
  weatherView data field = Some view ->
  exists cur primary others today rest,
    current data = Some cur /\ weather cur = primary :: others
    /\ daily data = today :: rest
    /\ allRendered (hourlyChildren data) = Some (hourlyRow view)
    /\ allRendered (dailyChildren data) = Some (dailyRows view)
    /\ searchValue view = field /\ placeName view = name data
    /\ temperature view = round (temp cur)
    /\ conditionText view = description primary
    /\ high view = match fi_temp today with
                   | MinMax _ hi => Some (round hi)
                   | Scalar _ => None
                   end
    /\ low view = match fi_temp today with
                  | MinMax lo _ => Some (round lo)
                  | Scalar _ => None
                  end.
Proof.
  unfold weatherView. fold (hourlyChildren data). fold (dailyChildren data).
  destruct (current data) as [cur|] eqn:Hcur; [|discriminate].
  destruct (weather cur) as [|primary others] eqn:Hweather; [discriminate|].
  destruct (daily data) as [|today rest] eqn:Hdaily; [discriminate|].
  destruct (allRendered (hourlyChildren data)) as [hours|]; [|discriminate].
  destruct (allRendered (dailyChildren data)) as [days|]; [|discriminate].
  intros E. injection E as <-. simpl.
  exists cur, primary, others, today, rest.
  repeat split; assumption || reflexivity.
Qed.

(** The hourly strip shows the first 24 points of the forecast, or all of
    them when there are fewer, in order; the point at position 0 is the
    only one labelled "Now", every other one carries the hour of its own
    timestamp. *)
Theorem hourly_strip
  (data : WeatherData) (field : string) (view : WeatherView) :
  weatherView data field = Some view ->
  List.length (hourlyRow view) = Nat.min 24 (List.length (hourly data))
  /\ (forall i item,
        (i < 24)%nat -> nth_error (hourly data) i = Some item ->
        nth_error (hourlyRow view) i = HourlyForecastItem item (i =? 0)%nat)
  /\ (forall i shown,
        nth_error (hourlyRow view) i = Some shown ->
        (hourLabel shown = Now <-> i = 0%nat)).
Proof.
  intros Hview.
  destruct (weatherView_inv _ _ _ Hview)
    as (cur & primary & others & today & rest & _ & _ & _ & Hhours & _).
  assert (Hnth : forall i item,
             (i < 24)%nat -> nth_error (hourly data) i = Some item ->
             nth_error (hourlyRow view) i = HourlyForecastItem item (i =? 0)%nat).
  { intros i item Hi Hitem.
    pose proof (allRendered_nth _ _ i Hhours) as E.
    rewrite hourlyChildren_nth in E. apply Nat.ltb_lt in Hi.
    rewrite Hi, Hitem in E. simpl in E.
    symmetry. now apply Some_eq_option_map_Some. }
  split; [|split]; [| exact Hnth |].
  - rewrite (allRendered_length _ _ Hhours).
    unfold hourlyChildren, mapIndexed.
    rewrite mapFrom_length, slice_length, !Nat.sub_0_r. reflexivity.
  - intros i shown Hshown.
    pose proof (allRendered_nth _ _ i Hhours) as E.
    rewrite hourlyChildren_nth, Hshown in E. simpl in E.
    destruct (i <? 24)%nat; [|discriminate].
    destruct (nth_error (hourly data) i) as [item|]; [|discriminate].
    simpl in E. injection E as E. unfold HourlyForecastItem in E.
    destruct (fi_weather item); [discriminate|]. injection E as <-. simpl.
    destruct i as [|i]; simpl; split; try reflexivity; discriminate.
Qed.

(** The seven-day list leaves out the first daily point (today) and shows
    the next seven, or as many as there are, in order; the first point
    supplies the high and the low under the title, which are left empty
    when its temperature is a single number. *)
Theorem daily_list
  (data : WeatherData) (field : string) (view : WeatherView) :
  weatherView data field = Some view ->
  List.length (dailyRows view) = Nat.min 7 (List.length (daily data) - 1)
  /\ (forall i item,
        (i < 7)%nat -> nth_error (daily data) (S i) = Some item ->
        nth_error (dailyRows view) i = DailyForecastItem item)
  /\ (exists today,
        nth_error (daily data) 0 = Some today
        /\ high view = match fi_temp today with
                       | MinMax _ hi => Some (round hi)
                       | Scalar _ => None
                       end
        /\ low view = match fi_temp today with
                      | MinMax lo _ => Some (round lo)
                      | Scalar _ => None
                      end).
Proof.
  intros Hview.
  destruct (weatherView_inv _ _ _ Hview)
    as (cur & primary & others & today & rest & _ & _ & Hdaily & _ & Hdays
        & _ & _ & _ & _ & Hhigh & Hlow).
  split; [|split].
  - rewrite (allRendered_length _ _ Hdays).
    unfold dailyChildren. rewrite length_map, slice_length. reflexivity.
  - intros i item Hi Hitem.
    pose proof (allRendered_nth _ _ i Hdays) as E.
    rewrite dailyChildren_nth in E. apply Nat.ltb_lt in Hi.
    rewrite Hi, Hitem in E. simpl in E.
    symmetry. now apply Some_eq_option_map_Some.
  - exists today. rewrite Hdaily. now repeat split.
Qed.

Lemma HourlyForecastItem_throws (item : ForecastItem) (isNow : bool) :
  HourlyForecastItem item isNow = None <-> fi_weather item = [].
Proof.
  unfold HourlyForecastItem. destruct (fi_weather item); split;
    try reflexivity; discriminate.
Qed.

Lemma DailyForecastItem_throws (item : ForecastItem) :
  DailyForecastItem item = None <-> fi_weather item = [].
Proof.
  unfold DailyForecastItem. destruct (fi_weather item); split;
    try reflexivity; discriminate.
Qed.

(** The weather screen renders without throwing exactly when the bundle
    has current conditions with at least one condition, at least one daily
    point, and a condition on every point that is shown: the hourly points
    at positions 0 to 23 and the daily points at positions 1 to 7. Nothing
    else is required: shorter series and points beyond those positions do
    not matter. *)
Theorem weatherView_renders_iff (data : WeatherData) (field : string) :
  weatherView data field <> None
  <-> (exists cur, current data = Some cur /\ weather cur <> [])
      /\ daily data <> []
      /\ (forall i item,
            (i < 24)%nat -> nth_error (hourly data) i = Some item ->
            fi_weather item <> [])
      /\ (forall i item,
            (1 <= i < 8)%nat -> nth_error (daily data) i = Some item ->
            fi_weather item <> []).
Proof.
  assert (Hh : allRendered (hourlyChildren data) <> None
               <-> forall i item,
                   (i < 24)%nat -> nth_error (hourly data) i = Some item ->
                   fi_weather item <> []).
  { rewrite allRendered_defined. split.
    - intros H i item Hi Hitem Hempty. apply (H i).
      rewrite hourlyChildren_nth. apply Nat.ltb_lt in Hi.
      rewrite Hi, Hitem. simpl. f_equal.
      now apply HourlyForecastItem_throws.
    - intros H i E. rewrite hourlyChildren_nth in E.
      destruct (i <? 24)%nat eqn:Hi; [|discriminate].
      destruct (nth_error (hourly data) i) as [item|] eqn:Hitem; [|discriminate].
      simpl in E. injection E as E. apply HourlyForecastItem_throws in E.
      apply Nat.ltb_lt in Hi. exact (H i item Hi Hitem E). }
  assert (Hd : allRendered (dailyChildren data) <> None
               <-> forall i item,
                   (1 <= i < 8)%nat -> nth_error (daily data) i = Some item ->
                   fi_weather item <> []).
  { rewrite allRendered_defined. split.
    - intros H [|i] item Hi Hitem Hempty; [lia|]. apply (H i).
      rewrite dailyChildren_nth.
      assert (Hlt : (i <? 7)%nat = true) by (apply Nat.ltb_lt; lia).
      rewrite Hlt, Hitem. simpl. f_equal.
      now apply DailyForecastItem_throws.
    - intros H i E. rewrite dailyChildren_nth in E.
      destruct (i <? 7)%nat eqn:Hi; [|discriminate].
      destruct (nth_error (daily data) (S i)) as [item|] eqn:Hitem; [|discriminate].
      simpl in E. injection E as E. apply DailyForecastItem_throws in E.
      apply Nat.ltb_lt in Hi.
      apply (H (S i) item); [lia | exact Hitem | exact E]. }
  rewrite <- Hh, <- Hd.
  unfold weatherView. fold (hourlyChildren data). fold (dailyChildren data).
  destruct (current data) as [cur|].
  - destruct (weather cur) as [|primary others] eqn:Hweather.
    + split; [intros H; now elim H|].
      intros ((cur' & E & Hne) & _). injection E as <-. now elim Hne.
    + destruct (daily data) as [|today rest] eqn:Hdaily.
      * split; [intros H; now elim H | intros (_ & Hne & _); now elim Hne].
      * destruct (allRendered (hourlyChildren data));
          destruct (allRendered (dailyChildren data));
          split; try (intros H; now elim H); try tauto;
          intros _; repeat split; try discriminate;
          exists cur; split; [reflexivity | now rewrite Hweather].
  - split; [intros H; now elim H|].
    intros ((cur & E & _) & _). discriminate.
Qed.

Lemma hourly_strip_witness :
  exists view,
    weatherView Sample.forecast "" = Some view
    /\ List.length (hourlyRow view) = 24%nat
    /\ option_map hourLabel (nth_error (hourlyRow view) 0) = Some Now
    /\ option_map hourLabel (nth_error (hourlyRow view) 1)
       = Some (HourOf 1700023600000).
Proof.
  destruct (weatherView Sample.forecast "") as [view|] eqn:E.
  - exists view. split; [reflexivity|].
    destruct (hourly_strip Sample.forecast "" view E) as (Hlen & Hnth & _).
    split; [exact Hlen|]. split.
    + now rewrite (Hnth 0%nat (Sample.hour 0)); [|lia|].
    + now rewrite (Hnth 1%nat (Sample.hour 1)); [|lia|].
  - vm_compute in E. discriminate.
Defined.

Lemma daily_list_witness :
  exists view,
    weatherView Sample.forecast "" = Some view
    /\ List.length (dailyRows view) = 7%nat
    /\ option_map weekdayOf (nth_error (dailyRows view) 0)
       = Some 1700106400000%Z
    /\ high view = Some 70%Z /\ low view = Some 55%Z.
Proof.
  destruct (weatherView Sample.forecast "") as [view|] eqn:E.
  - exists view. split; [reflexivity|].
    destruct (daily_list Sample.forecast "" view E)
      as (Hlen & Hnth & today & Htoday & Hhigh & Hlow).
    split; [exact Hlen|]. split.
    + now rewrite (Hnth 0%nat (Sample.day 1)); [|lia|].
    + injection Htoday as <-. now split.
  - vm_compute in E. discriminate.
Defined.

Lemma weatherView_renders_iff_witness :
  (exists cur, current Sample.forecast = Some cur /\ weather cur <> [])
  /\ daily Sample.forecast <> []
  /\ (forall i item,
        (i < 24)%nat -> nth_error (hourly Sample.forecast) i = Some item ->
        fi_weather item <> [])
  /\ (forall i item,
        (1 <= i < 8)%nat -> nth_error (daily Sample.forecast) i = Some item ->
        fi_weather item <> []).
Proof.
  apply (proj1 (weatherView_renders_iff Sample.forecast "")).
  vm_compute. discriminate.
Defined.

(** ** One render of the component *)

(** A render goes through exactly when the gradient can be computed (a
    held bundle with current conditions has at least one condition) and,
    if the weather branch is the one taken, the weather screen renders. *)
Theorem Index_renders_iff (st : AppState) :
  Index st <> None
  <-> (forall data cur,
         weatherData st = Some data -> current data = Some cur ->
         weather cur <> [])
      /\ (loading st = false -> truthyError (error st) = false ->
          forall data, weatherData st = Some data ->
                       weatherView data (searchInput st) <> None).
Proof.
  unfold Index, bgColors, renderContent.
  destruct (weatherData st) as [data|].
  - destruct (current data) as [cur|] eqn:Hcur.
    + destruct (weather cur) as [|primary others] eqn:Hweather.
      * split; [intros H; now elim H|].
        intros [H _]. elim (H data cur eq_refl Hcur). exact Hweather.
      * destruct (loading st); [|destruct (truthyError (error st))].
        -- split; [|discriminate]. intros _. split; [|discriminate].
           intros d c E1 E2. injection E1 as <-. rewrite Hcur in E2.
           injection E2 as <-. now rewrite Hweather.
        -- split; [|discriminate]. intros _. split; [|discriminate].
           intros d c E1 E2. injection E1 as <-. rewrite Hcur in E2.
           injection E2 as <-. now rewrite Hweather.
        -- destruct (weatherView data (searchInput st)) eqn:Hview.
           ++ split; [|discriminate]. intros _. split.
              ** intros d c E1 E2. injection E1 as <-. rewrite Hcur in E2.
                 injection E2 as <-. now rewrite Hweather.
              ** intros _ _ d E. injection E as <-. now rewrite Hview.
           ++ split; [intros H; now elim H|].
              intros [_ H]. elim (H eq_refl eq_refl data eq_refl). exact Hview.
    + destruct (loading st); [|destruct (truthyError (error st))].
      * split; [|discriminate]. intros _. split; [|discriminate].
        intros d c E1 E2. injection E1 as <-. rewrite Hcur in E2. discriminate.
      * split; [|discriminate]. intros _. split; [|discriminate].
        intros d c E1 E2. injection E1 as <-. rewrite Hcur in E2. discriminate.
      * assert (Hview : weatherView data (searchInput st) = None)
          by (unfold weatherView; now rewrite Hcur).
        rewrite Hview. split; [intros H; now elim H|].
        intros [_ H]. elim (H eq_refl eq_refl data eq_refl). exact Hview.
  - destruct (loading st); [|destruct (truthyError (error st))];
      (split; [|discriminate]); intros _; split; discriminate.
Qed.

Lemma Index_renders_iff_witness :
  Index Demo.mounted = None
  /\ Index neverFound <> None.
Proof.
  split.
  - destruct (Index Demo.mounted) eqn:E; [|reflexivity].
    assert (H : Index Demo.mounted <> None) by (rewrite E; discriminate).
    apply (proj1 (Index_renders_iff Demo.mounted)) in H.
    destruct H as [_ H].
    elim (H eq_refl eq_refl _ eq_refl). reflexivity.
  - apply (proj2 (Index_renders_iff neverFound)). split; discriminate.
Defined.

(** A held bundle whose current conditions carry an empty condition list
    makes every render throw, the spinner and the error screen included:
    the gradient is computed first, in every state. *)
Theorem empty_conditions_break_every_screen
  (st : AppState) (data : WeatherData) (cur : Current) :
  weatherData st = Some data -> current data = Some cur -> weather cur = [] ->
  Index st = None
  /\ Index (setLoading true st) = None
  /\ forall message, Index (setLoading false (setError (Some message) st)) = None.
Proof.
  intros Hdata Hcur Hweather.
  unfold Index, bgColors. simpl. now rewrite Hdata, Hcur, Hweather.
Qed.

Lemma empty_conditions_break_every_screen_witness :
  let st := setWeatherData (Some Sample.noConditions) neverFound in
  renderContent st = ErrorScreen (msgCityNotFound "Nowhereville") ""
  /\ Index st = None.
Proof.
  split; [reflexivity|].
  apply (empty_conditions_break_every_screen
           (setWeatherData (Some Sample.noConditions) neverFound)
           Sample.noConditions
           {| dt := 1700020000; sunrise := 1700000000; sunset := 1700040000;
              temp := 71 # 1; feels_like := 70 # 1; humidity := 40;
              uvi := 5 # 1; wind_speed := 3 # 1; weather := [] |});
    reflexivity.
Defined.

Lemma weatherView_spread_name
  (fetched : WeatherData) (canonical field : string) (view : WeatherView) :
  weatherView fetched field = Some view ->
  exists view',
    weatherView (spread_name fetched canonical) field = Some view'
    /\ placeName view' = canonical
    /\ searchValue view' = searchValue view
    /\ temperature view' = temperature view
    /\ conditionText view' = conditionText view
    /\ high view' = high view /\ low view' = low view
    /\ hourlyRow view' = hourlyRow view /\ dailyRows view' = dailyRows view
    /\ cards view' = cards view.
Proof.
  unfold weatherView. simpl.
  destruct (current fetched) as [cur|]; [|discriminate].
  destruct (weather cur) as [|primary others]; [discriminate|].
  destruct (daily fetched) as [|today rest]; [discriminate|].
  destruct (allRendered (mapIndexed _ _)) as [hours|]; [|discriminate].
  destruct (allRendered (map _ _)) as [days|]; [|discriminate].
  intros E. injection E as <-. eexists. split; [reflexivity|].
  simpl. repeat split.
Qed.

(** End to end: when geocoding and forecast both succeed and the forecast
    body is one the weather screen can render, the render after the run
    shows the weather screen titled with the geocoding match's name, over
    the gradient of the body's primary condition and day flag, with the
    search field as it was before the run. *)
Theorem ready_screen
  (apiKey : string) (net : Network) (cityName : string) (st : AppState)
  (r : Response (list GeoMatch)) (place : GeoMatch) (others : list GeoMatch)
  (w : Response WeatherData) (fetched : WeatherData)
  (cur : Current) (primary : Condition) (conditions : list Condition) :
  cityName <> "" ->
  apiKey <> API_KEY_PLACEHOLDER ->
  fetchGeo net (geoUrl apiKey cityName) = inr r ->
  ok r = true ->
  json r = inr (place :: others) ->
  fetchForecast net (weatherUrl apiKey (lat place) (lon place)) = inr w ->
  ok w = true ->
  json w = inr fetched ->
  current fetched = Some cur ->
  weather cur = primary :: conditions ->
  weatherView fetched (searchInput st) <> None ->
  exists view,
    Index (fst (fetchWeather apiKey net cityName st))
    = Some (themeColors (main primary) (isDay cur), WeatherBody view)
    /\ placeName view = geo_name place
    /\ searchValue view = searchInput st
    /\ temperature view = round (temp cur)
    /\ conditionText view = description primary.
Proof.
  intros Hcity Hkey Hgeo Hok Hbody Hfc Hok' Hbody' Hcur Hweather Hrenders.
  apply truthy_iff in Hcity.
  rewrite (fetchWeather_configured _ _ _ _ Hcity Hkey).
  rewrite (tryBlock_success _ _ _ _ _ _ Hgeo Hok Hbody _ _ Hfc Hok' Hbody').
  destruct (weatherView fetched (searchInput st)) as [view|] eqn:Hview;
    [|now elim Hrenders].
  destruct (weatherView_spread_name _ (geo_name place) _ _ Hview)
    as (view' & Hview' & Hname & Hfield & Htemp & Htext & _).
  destruct (weatherView_inv _ _ _ Hview)
    as (cur0 & primary0 & others0 & today & rest & Hcur0 & Hweather0 & _ & _ & _
        & Hfield0 & _ & Htemp0 & Htext0 & _).
  rewrite Hcur in Hcur0. injection Hcur0 as <-.
  rewrite Hweather in Hweather0. injection Hweather0 as <- <-.
  exists view'. unfold Index, bgColors, renderContent. simpl.
  rewrite Hcur, Hweather, Hview'.
  repeat split; congruence.
Qed.

Lemma ready_screen_witness :
  exists view,
    Index (fst (fetchWeather Demo.key Sample.net "irvine, ca" neverFound))
    = Some (["#4a90e2"; "#81c7f5"], WeatherBody view)
    /\ placeName view = "Irvine"
    /\ searchValue view = ""
    /\ temperature view = 71%Z
    /\ conditionText view = "clear sky".
Proof.
  apply (ready_screen Demo.key Sample.net "irvine, ca" neverFound
           {| ok := true; json := inr [Demo.irvine] |} Demo.irvine []
           {| ok := true; json := inr Sample.forecast |} Sample.forecast
           Demo.clearNoon Sample.sunny []);
    solve [reflexivity | discriminate].
Defined.

(** ** Every run of the pipeline *)

Ltac run_cases apiKey net cityName :=
  unfold fetchWeather;
  destruct (truthy cityName) eqn:?; simpl;
  [ destruct (apiKey =? API_KEY_PLACEHOLDER) eqn:?; simpl;
    [ | unfold tryBlock, Try.bind, Try.fetch, Try.parse, Try.throw, Try.ret;
        destruct (fetchGeo net (geoUrl apiKey cityName))
          as [?e|[[] [?e|[|?first ?others]]]] eqn:?; simpl;
        [ | | | destruct (fetchForecast net
                            (weatherUrl apiKey (lat first) (lon first)))
                  as [?e|[[] [?e|?fetched]]] eqn:?; simpl | | | ] ]
  | ].

Lemma fetchWeather_log_length
  (apiKey : string) (net : Network) (cityName : string) (st : AppState) :
  (List.length (snd (fetchWeather apiKey net cityName st)) <= 2)%nat.
Proof. run_cases apiKey net cityName; simpl; lia. Qed.

(** A run issues no request, or the geocoding request alone, or the
    geocoding request followed by one forecast request; the forecast is
    requested only after the geocoding response was ok and held a match,
    and for the coordinates of the first match. *)
Theorem forecast_only_after_match
  (apiKey : string) (net : Network) (cityName : string) (st : AppState) :
  snd (fetchWeather apiKey net cityName st) = []
  \/ snd (fetchWeather apiKey net cityName st) = [geoUrl apiKey cityName]
  \/ exists r first others,
       fetchGeo net (geoUrl apiKey cityName) = inr r
       /\ ok r = true /\ json r = inr (first :: others)
       /\ snd (fetchWeather apiKey net cityName st)
          = [geoUrl apiKey cityName;
             weatherUrl apiKey (lat first) (lon first)].
Proof.
  run_cases apiKey net cityName; auto;
    right; right; eexists _, first, others; repeat split.
Qed.

(** A run replaces the held bundle only when both calls succeeded, and
    then with the forecast body renamed after the first match and with the
    error cleared; in every other case the bundle held before the run is
    still held after it. *)
Theorem bundle_changes_only_on_success
  (apiKey : string) (net : Network) (cityName : string) (st : AppState) :
  weatherData (fst (fetchWeather apiKey net cityName st)) = weatherData st
  \/ exists r first others w fetched,
       fetchGeo net (geoUrl apiKey cityName) = inr r
       /\ ok r = true /\ json r = inr (first :: others)
       /\ fetchForecast net (weatherUrl apiKey (lat first) (lon first)) = inr w
       /\ ok w = true /\ json w = inr fetched
       /\ weatherData (fst (fetchWeather apiKey net cityName st))
          = Some (spread_name fetched (geo_name first))
       /\ error (fst (fetchWeather apiKey net cityName st)) = None
       /\ loading (fst (fetchWeather apiKey net cityName st)) = false.
Proof.
  run_cases apiKey net cityName;
    try (left; reflexivity);
    try (left; match goal with e : Thrown |- _ => now destruct e end).
  right.
  exists {| ok := true; json := inr (first :: others) |}, first, others,
    {| ok := true; json := inr fetched |}, fetched.
  repeat split; assumption.
Qed.

Lemma fetchWeather_settles
  (apiKey : string) (net : Network) (cityName : string) (st : AppState) :
  loading st = false ->
  loading (fst (fetchWeather apiKey net cityName st)) = false.
Proof.
  intros H. destruct (truthy cityName) eqn:Hcity.
  - now apply fetchWeather_frame.
  - unfold fetchWeather. now rewrite Hcity.
Qed.

Lemma fetchWeather_error_or_data
  (apiKey : string) (net : Network) (cityName : string) (st : AppState) :
  (truthy cityName = true \/ error st <> None \/ weatherData st <> None) ->
  error (fst (fetchWeather apiKey net cityName st)) <> None
  \/ weatherData (fst (fetchWeather apiKey net cityName st)) <> None.
Proof.
  intros H. run_cases apiKey net cityName;
    try (left; discriminate); try (right; discriminate);
    try (left; match goal with e : Thrown |- _ => now destruct e end).
  destruct H as [H|H]; [discriminate | exact H].
Qed.

(** ** Sessions *)

Lemma run_invariant
  (apiKey : string) (net : Network) (P : AppState -> Prop) :
  (forall ev st, P st -> P (fst (step apiKey net ev st))) ->
  forall evs st, P st -> P (fst (run apiKey net evs st)).
Proof.
  intros Hstep evs. induction evs as [|ev evs IH]; intros st H; simpl; [exact H|].
  specialize (Hstep ev st H).
  destruct (step apiKey net ev st) as [st1 log1]. simpl in Hstep.
  specialize (IH st1 Hstep).
  destruct (run apiKey net evs st1) as [st2 log2]. exact IH.
Qed.

Lemma session_invariant
  (apiKey : string) (net : Network) (P : AppState -> Prop) :
  P (fst (mount apiKey net)) ->
  (forall ev st, P st -> P (fst (step apiKey net ev st))) ->
  forall evs, P (fst (session apiKey net evs)).
Proof.
  intros Hmount Hstep evs. unfold session.
  destruct (mount apiKey net) as [st0 log0]. simpl in Hmount.
  pose proof (run_invariant apiKey net P Hstep evs st0 Hmount) as H.
  destruct (run apiKey net evs st0) as [st1 log1]. exact H.
Qed.

Lemma step_submit (apiKey : string) (net : Network) (st : AppState) :
  step apiKey net SubmitEditing st = (handleSearch st, [])
  \/ step apiKey net SubmitEditing st
     = fetchWeather apiKey net (city (handleSearch st)) (handleSearch st).
Proof.
  simpl. unfold useEffect.
  destruct (city (handleSearch st) =? city st); [now left | now right].
Qed.

Lemma handleSearch_frame (st : AppState) :
  weatherData (handleSearch st) = weatherData st
  /\ loading (handleSearch st) = loading st
  /\ error (handleSearch st) = error st.
Proof. unfold handleSearch. now destruct (truthy (searchInput st)). Qed.

(** Once its runs have settled, a session never shows the spinner: after
    the mount and any sequence of typing and confirming, the loading flag
    is off. *)
Theorem session_settled
  (apiKey : string) (net : Network) (evs : list Event) :
  loading (fst (session apiKey net evs)) = false
  /\ renderContent (fst (session apiKey net evs)) <> Spinner.
Proof.
  assert (H : loading (fst (session apiKey net evs)) = false).
  { apply (session_invariant apiKey net (fun st => loading st = false)).
    - now apply fetchWeather_frame.
    - intros [text|] st Hst; [exact Hst|].
      destruct (handleSearch_frame st) as (_ & Hload & _).
      destruct (step_submit apiKey net st) as [E|E]; rewrite E.
      + simpl. congruence.
      + apply fetchWeather_settles. congruence. }
  split; [exact H|]. unfold renderContent. rewrite H.
  destruct (truthyError _); [discriminate|].
  destruct (weatherData _); discriminate.
Qed.

(** After the mount and any sequence of events the state holds an error
    or a bundle; so the content is blank only in the one case where the
    error is set to the empty string (an [Error] thrown with an empty
    message) and no bundle was ever fetched. *)
Theorem session_error_or_data
  (apiKey : string) (net : Network) (evs : list Event) :
  (error (fst (session apiKey net evs)) <> None
   \/ weatherData (fst (session apiKey net evs)) <> None)
  /\ (renderContent (fst (session apiKey net evs)) = Blank ->
      error (fst (session apiKey net evs)) = Some ""
      /\ weatherData (fst (session apiKey net evs)) = None).
Proof.
  assert (H : error (fst (session apiKey net evs)) <> None
              \/ weatherData (fst (session apiKey net evs)) <> None).
  { apply (session_invariant apiKey net
             (fun st => error st <> None \/ weatherData st <> None)).
    - apply fetchWeather_error_or_data. now left.
    - intros [text|] st Hst; [exact Hst|].
      destruct (handleSearch_frame st) as (Hdata & _ & Herr).
      destruct (step_submit apiKey net st) as [E|E]; rewrite E.
      + simpl. now rewrite Hdata, Herr.
      + apply fetchWeather_error_or_data. right. now rewrite Hdata, Herr. }
  split; [exact H|].
  unfold renderContent, truthyError, truthy.
  destruct (loading _); [discriminate|].
  destruct (error _) as [[|c m]|]; simpl; try discriminate;
    destruct (weatherData _); try discriminate; intros _.
  - now split.
  - destruct H as [H|H]; now elim H.
Qed.

Lemma session_error_or_data_witness :
  error (fst (session Demo.key Sample.silentNet [])) = Some ""
  /\ weatherData (fst (session Demo.key Sample.silentNet [])) = None.
Proof.
  apply (proj2 (session_error_or_data Demo.key Sample.silentNet [])).
  reflexivity.
Defined.

Lemma trimStart_fixed (s : string) :
  (forall c t, s = String c t -> isWhiteSpace c = false) -> trimStart s = s.
Proof.
  destruct s as [|c t]; simpl; [reflexivity|].
  intros H. now rewrite (H c t eq_refl).
Qed.

Lemma trimEnd_fixed (s : string) :
  (forall t c, s = t ++ String c "" -> isWhiteSpace c = false) -> trimEnd s = s.
Proof.
  induction s as [|d s IH]; simpl; [reflexivity|].
  intros H. rewrite IH.
  - destruct s as [|e s]; [|reflexivity].
    now rewrite (H "" d eq_refl).
  - intros t c E. apply (H (String d t) c). simpl. now rewrite E.
Qed.

(** Trimming what is already trimmed changes nothing. *)
Lemma trim_idempotent (s : string) : trim (trim s) = trim s.
Proof.
  unfold trim at 1. rewrite trimStart_fixed.
  - apply trimEnd_fixed. intros t c E. exact (trim_last s t c E).
  - intros c t E. exact (trim_head s c t E).
Qed.

(** The current city is a trimmed string in every state a session can
    reach: it never starts or ends with white space, so no request is ever
    made for a padded name. *)
Theorem session_city_trimmed
  (apiKey : string) (net : Network) (evs : list Event) :
  trim (city (fst (session apiKey net evs))) = city (fst (session apiKey net evs)).
Proof.
  apply (session_invariant apiKey net (fun st => trim (city st) = city st)).
  - destruct (fetchWeather_frame apiKey net (city initialState) initialState)
      as (Hcity & _). unfold mount. now rewrite Hcity.
  - intros [text|] st Hst; [exact Hst|].
    assert (Hhandled : trim (city (handleSearch st)) = city (handleSearch st)).
    { unfold handleSearch. destruct (truthy (searchInput st)); [|exact Hst].
      simpl. apply trim_idempotent. }
    destruct (step_submit apiKey net st) as [E|E]; rewrite E; [exact Hhandled|].
    destruct (fetchWeather_frame apiKey net (city (handleSearch st)) (handleSearch st))
      as (Hcity & _).
    now rewrite Hcity.
Qed.

(** With the credential left at the placeholder, as the repository has
    it, no session ever issues a request or holds a bundle: after the
    mount and any sequence of events the state is the missing-key error. *)
Theorem session_shipped_key (net : Network) (evs : list Event) :
  snd (session API_KEY net evs) = []
  /\ isError (fst (session API_KEY net evs))
       "Please add your OpenWeatherMap API key."
  /\ weatherData (fst (session API_KEY net evs)) = None
  /\ Index (fst (session API_KEY net evs))
     = Some (defaultColors,
             ErrorBody "Please add your OpenWeatherMap API key."
               (searchInput (fst (session API_KEY net evs)))).
Proof.
  set (P := fun st : AppState =>
              loading st = false /\ error st = Some msgMissingKey
              /\ weatherData st = None).
  assert (Hrun : forall cityName st,
             P st -> P (fst (fetchWeather API_KEY net cityName st))
                     /\ snd (fetchWeather API_KEY net cityName st) = []).
  { intros cityName st Hst. unfold fetchWeather.
    destruct (truthy cityName); simpl; [|now split].
    destruct Hst as (_ & _ & Hdata). unfold P. simpl. now repeat split. }
  assert (Hstep : forall ev st,
             P st -> P (fst (step API_KEY net ev st))
                     /\ snd (step API_KEY net ev st) = []).
  { intros [text|] st Hst; [now split|].
    assert (Hhandled : P (handleSearch st)).
    { destruct (handleSearch_frame st) as (Hd & Hl & He).
      unfold P. rewrite Hd, Hl, He. exact Hst. }
    destruct (step_submit API_KEY net st) as [E|E]; rewrite E;
      [now split | now apply Hrun]. }
  assert (Hruns : forall evs' st,
             P st -> P (fst (run API_KEY net evs' st))
                     /\ snd (run API_KEY net evs' st) = []).
  { induction evs' as [|ev evs' IH]; intros st Hst; simpl; [now split|].
    destruct (Hstep ev st Hst) as [H1 L1].
    destruct (step API_KEY net ev st) as [st1 log1]. simpl in H1, L1.
    destruct (IH st1 H1) as [H2 L2].
    destruct (run API_KEY net evs' st1) as [st2 log2]. simpl in H2, L2.
    simpl. subst. now split. }
  assert (Hmount : P (fst (mount API_KEY net)) /\ snd (mount API_KEY net) = [])
    by (now split).
  unfold session. destruct (mount API_KEY net) as [st0 log0].
  destruct Hmount as [H0 L0]. simpl in H0, L0.
  destruct (Hruns evs st0 H0) as [H1 L1].
  destruct (run API_KEY net evs st0) as [st1 log1]. simpl in H1, L1. simpl.
  destruct H1 as (Hload & Herr & Hdata). subst.
  unfold isError, Index, renderContent. rewrite Hload, Herr, Hdata.
  now repeat split.
Qed.

(** Confirming a text whose trimmed form is the current city triggers no
    run: the search field is emptied and nothing else changes. In
    particular, after a failed search, submitting the same name again does
    not retry it. *)
Theorem resubmit_same_city
  (apiKey : string) (net : Network) (text : string) (st : AppState) :
  text <> "" -> trim text = city st ->
  submitText apiKey net text st = (setSearchInput "" st, []).
Proof.
  intros Hne Hsame. unfold submitText. simpl. unfold useEffect, handleSearch.
  simpl. apply truthy_iff in Hne. rewrite Hne. simpl.
  rewrite Hsame, String.eqb_refl. unfold setSearchInput, setCity. simpl.
  reflexivity.
Qed.

Lemma resubmit_same_city_witness :
  let st := fst (session Demo.key Demo.net
                   [ChangeText "Nowhereville"; SubmitEditing]) in
  isError st (msgCityNotFound "Nowhereville")
  /\ submitText Demo.key Demo.net " Nowhereville" st = (setSearchInput "" st, []).
Proof.
  split; [repeat split|].
  apply (resubmit_same_city Demo.key Demo.net " Nowhereville"
           (fst (session Demo.key Demo.net
                   [ChangeText "Nowhereville"; SubmitEditing]))).
  - discriminate.
  - reflexivity.
Defined.

(** Confirming twice in a row is the same as confirming once: the first
    confirmation empties the field, so the second finds nothing to submit
    and issues no request. *)
Theorem submit_twice (apiKey : string) (net : Network) (st : AppState) :
  run apiKey net [SubmitEditing; SubmitEditing] st
  = run apiKey net [SubmitEditing] st.
Proof.
  assert (Hfield : searchInput (fst (step apiKey net SubmitEditing st)) = "").
  { destruct (string_dec (searchInput st) "") as [Hempty|Hne].
    - destruct (step_submit apiKey net st) as [E|E]; rewrite E;
        rewrite (handleSearch_empty _ Hempty); [exact Hempty|].
      destruct (fetchWeather_frame apiKey net (city st) st) as (_ & Hf & _).
      now rewrite Hf.
    - destruct (step_submit apiKey net st) as [E|E]; rewrite E;
        rewrite (handleSearch_nonempty _ Hne); [reflexivity|].
      match goal with
      | |- searchInput (fst (fetchWeather ?k ?n ?c ?s)) = _ =>
          destruct (fetchWeather_frame k n c s) as (_ & Hf & _); now rewrite Hf
      end. }
  simpl run.
  destruct (useEffect apiKey net st (handleSearch st)) as [st1 log1] eqn:E.
  simpl in Hfield. change (step apiKey net SubmitEditing st) with
    (useEffect apiKey net st (handleSearch st)) in Hfield.
  rewrite E in Hfield. simpl in Hfield.
  unfold useEffect at 1. rewrite (handleSearch_empty _ Hfield), String.eqb_refl.
  reflexivity.
Qed.

(** Typing never reaches the network; each confirmation issues at most two
    requests, and so does the mount. *)
Theorem session_request_bound
  (apiKey : string) (net : Network) (evs : list Event) :
  (List.length (snd (session apiKey net evs)) <= 2 + 2 * submissions evs)%nat.
Proof.
  assert (Hrun : forall cityName st,
             (List.length (snd (fetchWeather apiKey net cityName st)) <= 2)%nat).
  { intros cityName st. apply fetchWeather_log_length. }
  assert (Hruns : forall evs' st,
             (List.length (snd (run apiKey net evs' st)) <= 2 * submissions evs')%nat).
  { induction evs' as [|ev evs' IH]; intros st; simpl; [lia|].
    assert (Hstep : (List.length (snd (step apiKey net ev st))
                     <= match ev with SubmitEditing => 2 | ChangeText _ => 0 end)%nat).
    { destruct ev as [text|]; [simpl; lia|].
      destruct (step_submit apiKey net st) as [E|E]; rewrite E;
        [simpl; lia | apply Hrun]. }
    destruct (step apiKey net ev st) as [st1 log1]. simpl in Hstep.
    specialize (IH st1).
    destruct (run apiKey net evs' st1) as [st2 log2]. simpl in IH. simpl.
    rewrite length_app. destruct ev; lia. }
  unfold session. pose proof (Hrun (city initialState) initialState) as H0.
  fold (mount apiKey net) in H0.
  destruct (mount apiKey net) as [st0 log0]. simpl in H0.
  specialize (Hruns evs st0).
  destruct (run apiKey net evs st0) as [st1 log1]. simpl in Hruns. simpl.
  rewrite length_app. lia.
Qed.
